(** * The de-duplicating object counter of [Cashier_object_detection.py]

    A shallow embedding of the cashier script: the price table, the
    proximity test [is_same_object], the per-detection body of the frame
    loop of [run_cashier], the loops around it, the overlay of the running
    counts, the camera loop and the final bill.

    Conventions.
    - Python integers are [Z]; the centre of a box is computed with true
      division, modelled in [Q] (exact for every coordinate a frame can
      hold, the sum of two of them staying far below 2^53).
    - [PRICE_LIST] is a dict used as a lookup table only: a [gmap].
    - [counts] is a [defaultdict(int)] whose iteration order (the order of
      first insertion) is what the bill prints: an association list.
    - [seen_objects] is a Python list that is only appended to.
    - A raised exception leaves [run_cashier], whose locals are then lost:
      the functions return in the [result] monad. *)

From Stdlib Require Import QArith Qabs DecimalString.
From stdpp Require Import gmap strings list fin_maps.

Open Scope string_scope.
Open Scope list_scope.
Open Scope Z_scope.

(** ** Exceptions and the result monad *)

Inductive exn : Set :=
| ValueError
| OverflowError
| KeyError.

Inductive result (A : Type) : Type :=
| Ok (a : A)
| Raise (e : exn).
Arguments Ok {A} a.
Arguments Raise {A} e.

#[global] Instance result_ret : MRet result := fun _ a => Ok a.
#[global] Instance result_bind : MBind result := fun _ _ f m =>
  match m with
  | Ok a => f a
  | Raise e => Raise e
  end.

Definition is_ok {A} (r : result A) : bool :=
  match r with Ok _ => true | Raise _ => false end.

(** ** Data *)

(** A box is the tuple [(x1, y1, x2, y2)] of integers. *)
Definition box : Type := Z * Z * Z * Z.

(** One coordinate as the detector hands it over, a float of the tensor
    [box.xyxy[0]]: a finite value (every finite float is a rational), a NaN
    or an infinity. *)
Inductive coord : Type :=
| Finite (q : Q)
| NaN
| Inf (negative : bool).

(** One element of [r.boxes]: [cls_name] is [model.names[int(box.cls[0])]],
    [xyxy] the items of [box.xyxy[0]]. *)
Record Detection : Type := {
  cls_name : string;
  xyxy : list coord
}.

(** The two locals of [run_cashier] that the frame loop mutates. *)
Record state : Type := {
  counts : list (string * Z);
  seen_objects : list (string * box)
}.

(** [counts = defaultdict(int)], [seen_objects = []]. *)
Definition init : state := {| counts := []; seen_objects := [] |}.

(** ** The price table *)

Definition PRICE_LIST : gmap string Z :=
  list_to_map
    [ ("apple", 30); ("banana", 10); ("orange", 25); ("bottle", 50);
      ("cup", 40); ("sandwich", 50); ("pizza", 80); ("donut", 35);
      ("cake", 100) ].

(** [k in d] for a dict [d]. *)
Definition contains (d : gmap string Z) (k : string) : bool :=
  match d !! k with Some _ => true | None => false end.

(** ** The dict [counts] *)

Fixpoint dict_get (k : string) (d : list (string * Z)) : option Z :=
  match d with
  | [] => None
  | (k', v) :: rest => if String.eqb k' k then Some v else dict_get k rest
  end.

(** [d[k] = v]: an existing key keeps its place, a new one goes last. *)
Fixpoint dict_set (k : string) (v : Z) (d : list (string * Z)) : list (string * Z) :=
  match d with
  | [] => [(k, v)]
  | (k', v') :: rest =>
      if String.eqb k' k then (k', v) :: rest else (k', v') :: dict_set k v rest
  end.

(** Reading a [defaultdict(int)]: a missing key reads as [0]. *)
Definition tally (d : list (string * Z)) (k : string) : Z :=
  default 0 (dict_get k d).

(** [counts[k] += 1]. *)
Definition incr (k : string) (d : list (string * Z)) : list (string * Z) :=
  dict_set k (tally d k + 1) d.

(** ** The proximity test *)

(** [a < b] on rationals, as a boolean. *)
Definition Qlt_bool (a b : Q) : bool :=
  (Qnum a * QDen b <? Qnum b * QDen a)%Z.

Definition center_x (b : box) : Q :=
  let '(x1, _, x2, _) := b in (inject_Z (x1 + x2) / 2)%Q.

Definition center_y (b : box) : Q :=
  let '(_, y1, _, y2) := b in (inject_Z (y1 + y2) / 2)%Q.

(** The source computes the centres, their difference and its absolute
    value in doubles. For boxes in [exact_range] below every one of these
    doubles is the exact number, so the rationals here are the values the
    source computes and the answer is the answer of the source; beyond
    that range a double rounds and the source can answer otherwise. *)
Definition is_same_object (box1 box2 : box) (threshold : Z) : bool :=
  let '(x1, y1, x2, y2) := box1 in
  let cx1 := (inject_Z (x1 + x2) / 2)%Q in
  let cy1 := (inject_Z (y1 + y2) / 2)%Q in
  let '(x1b, y1b, x2b, y2b) := box2 in
  let cx2 := (inject_Z (x1b + x2b) / 2)%Q in
  let cy2 := (inject_Z (y1b + y2b) / 2)%Q in
  Qlt_bool (Qabs (cx1 - cx2)) (inject_Z threshold)
  && Qlt_bool (Qabs (cy1 - cy2)) (inject_Z threshold).

(** The default of the keyword argument [threshold]. *)
Definition default_threshold : Z := 50.

(** The boxes on which the doubles of [is_same_object] are exact: both
    coordinate sums are at most 2^52 in absolute value. A half of such a
    sum, and the difference of two such halves, has at most 53 significant
    bits, so no operation rounds. Every box of pixel coordinates is in
    this range. *)
Definition exact_range (b : box) : Prop :=
  let '(x1, y1, x2, y2) := b in
  Z.abs (x1 + x2) ≤ 2 ^ 52 ∧ Z.abs (y1 + y2) ≤ 2 ^ 52.

(** The rationals that are doubles of ordinary size: an integer of at most
    53 bits times a power of two. An operation on doubles whose exact
    result is such a number returns it. *)
Definition binary64 (q : Q) : Prop :=
  ∃ m e : Z, Z.abs m ≤ 2 ^ 53 ∧ -1074 ≤ e ≤ 970 ∧ (q == inject_Z m * 2 ^ e)%Q.

(** ** The frame loop of [run_cashier] *)

(** [int(c)] for one float: truncation towards zero; a NaN and an infinity
    raise. *)
Definition int_of (c : coord) : result Z :=
  match c with
  | Finite q => Ok (Z.quot (Qnum q) (QDen q))
  | NaN => Raise ValueError
  | Inf _ => Raise OverflowError
  end.

(** The first [n] items of the lazy [map(int, it)], converted on demand. *)
Fixpoint pull (n : nat) (it : list coord) : result (list Z) :=
  match n, it with
  | O, _ => Ok []
  | S _, [] => Ok []
  | S n', c :: rest => z ← int_of c; zs ← pull n' rest; Ok (z :: zs)
  end.

(** [x1, y1, x2, y2 = map(int, box.xyxy[0])]: unpacking asks the iterator
    for four items and then for a fifth, which has to be missing. *)
Definition unpack4 (it : list coord) : result box :=
  zs ← pull 5 it;
  match zs with
  | [x1; y1; x2; y2] => Ok (x1, y1, x2, y2)
  | _ => Raise ValueError
  end.

(** The scan over [seen_objects], left at the first match. *)
Fixpoint already_seen (seen : list (string * box)) (cls : string) (new_box : box) : bool :=
  match seen with
  | [] => false
  | (prev_cls, prev_box) :: rest =>
      if String.eqb prev_cls cls && is_same_object prev_box new_box default_threshold
      then true
      else already_seen rest cls new_box
  end.

(** The body of [for box in r.boxes], the drawing left out. *)
Definition process_box (st : state) (d : Detection) : result state :=
  if contains PRICE_LIST (cls_name d) then
    new_box ← unpack4 (xyxy d);
    if negb (already_seen (seen_objects st) (cls_name d) new_box) then
      Ok {| counts := incr (cls_name d) (counts st);
            seen_objects := seen_objects st ++ [(cls_name d, new_box)] |}
    else Ok st
  else Ok st.

(** [for box in r.boxes: ...] *)
Fixpoint process_boxes (st : state) (boxes : list Detection) : result state :=
  match boxes with
  | [] => Ok st
  | d :: rest => st' ← process_box st d; process_boxes st' rest
  end.

(** [for r in results: for box in r.boxes: ...]: what one frame does to the
    state; [results] is what the model returns for the frame. *)
Fixpoint update (st : state) (results : list (list Detection)) : result state :=
  match results with
  | [] => Ok st
  | r :: rest => st' ← process_boxes st r; update st' rest
  end.

(** The [while] loop over the frames that were read before it was left. *)
Fixpoint run_frames (st : state) (frames : list (list (list Detection))) : result state :=
  match frames with
  | [] => Ok st
  | results :: rest => st' ← update st results; run_frames st' rest
  end.

(** ** The final bill *)

(** One printed line: item, count, unit price and line total. *)
Record line : Type := {
  item : string;
  count : Z;
  price : Z;
  line_total : Z
}.

(** [for item, count in counts.items(): ...] with the running [subtotal];
    [prices[item]] raises for a key that is missing. The lines are
    collected in the order they are printed. This is the bill of a loop
    that runs to its end; what a loop that raises has printed before is
    given by [print_lines] below. *)
Fixpoint bill_loop (prices : gmap string Z) (items : list (string * Z))
    (printed : list line) (subtotal : Z) : result (list line * Z) :=
  match items with
  | [] => Ok (printed, subtotal)
  | (item, count) :: rest =>
      match prices !! item with
      | None => Raise KeyError
      | Some price =>
          let line_total := price * count in
          bill_loop prices rest
            (printed ++ [{| item := item; count := count; price := price;
                            line_total := line_total |}])
            (subtotal + line_total)
      end
  end.

(** The bill for a tally: the lines and the total. *)
Definition receipt (prices : gmap string Z) (counts : list (string * Z))
    : result (list line * Z) :=
  bill_loop prices counts [] 0.

(** What [print] has written, in order: the header, a line of the bill, the
    total, the closing rule. The text of a line is its four numbers. *)
Inductive printed : Type :=
| Header
| Item (ln : line)
| Total (subtotal : Z)
| Footer.

(** The loop of the bill with what it prints: the lines printed by the
    time the loop is left, and how it is left, with the subtotal or with
    the KeyError of [prices[item]]. The lookup comes before the [print] of
    its line, so the lines of the entries before the failing one have been
    printed. *)
Fixpoint print_lines (prices : gmap string Z) (items : list (string * Z))
    (subtotal : Z) : list printed * result Z :=
  match items with
  | [] => ([], Ok subtotal)
  | (item, count) :: rest =>
      match prices !! item with
      | None => ([], Raise KeyError)
      | Some price =>
          let line_total := price * count in
          let '(out, r) := print_lines prices rest (subtotal + line_total) in
          (Item {| item := item; count := count; price := price;
                   line_total := line_total |} :: out, r)
      end
  end.

(** The last lines of [run_cashier], from [subtotal = 0] on: the header,
    the loop, then the total and the closing rule when the loop did not
    raise. *)
Definition print_receipt (prices : gmap string Z) (counts : list (string * Z))
    : list printed * result () :=
  let '(out, r) := print_lines prices counts 0 in
  match r with
  | Ok subtotal => (Header :: out ++ [Total subtotal; Footer], Ok ())
  | Raise e => (Header :: out, Raise e)
  end.

(** A detection with a box of integers, as a well-behaved detector
    produces it. *)
Definition detection (label : string) (b : box) : Detection :=
  let '(x1, y1, x2, y2) := b in
  {| cls_name := label;
     xyxy := [Finite (inject_Z x1); Finite (inject_Z y1);
              Finite (inject_Z x2); Finite (inject_Z y2)] |}.

(** The number of stored objects that carry a label. *)
Definition count_seen (label : string) (seen : list (string * box)) : Z :=
  Z.of_nat (length (filter (λ o, o.1 = label) seen)).

(** A detection the frame loop can take in: its label is not priced, or its
    coordinates unpack into a box. *)
Definition well_formed (d : Detection) : Prop :=
  contains PRICE_LIST (cls_name d) = true → is_ok (unpack4 (xyxy d)) = true.

(** A malformed detection: a label outside the price table, or a box with a
    coordinate missing or NaN. *)
Definition malformed (d : Detection) : Prop :=
  contains PRICE_LIST (cls_name d) = false
  ∨ (length (xyxy d) < 4)%nat
  ∨ NaN ∈ xyxy d.

(** The sum of the line totals of a bill. *)
Definition sum_totals (lines : list line) : Z :=
  foldr Z.add 0 (line_total <$> lines).

(** ** Sample inputs *)

(** An apple in a 40 by 40 box whose centre is [(cx, 20)]. *)
Definition apple_at (cx : Z) : Detection :=
  detection "apple" (cx - 20, 0, cx + 20, 40).

(** A priced label with a NaN among its coordinates. *)
Definition nan_apple : Detection :=
  {| cls_name := "apple";
     xyxy := [Finite (inject_Z 10); NaN; Finite (inject_Z 50); Finite (inject_Z 50)] |}.

(** A priced label with a coordinate missing. *)
Definition short_apple : Detection :=
  {| cls_name := "apple";
     xyxy := [Finite (inject_Z 10); Finite (inject_Z 10); Finite (inject_Z 50)] |}.

(** A label without a price. *)
Definition keyboard : Detection := detection "keyboard" (10, 10, 50, 50).

(** The three frames of an apple seen, seen again two pixels further and
    seen elsewhere, and the state they lead to. *)
Definition first_apple : Detection := detection "apple" (10, 10, 50, 50).
Definition near_apple : Detection := detection "apple" (12, 11, 52, 51).
Definition far_apple : Detection := detection "apple" (200, 200, 240, 240).

Definition three_frames : list (list (list Detection)) :=
  [[[first_apple]]; [[near_apple]]; [[far_apple]]].

Definition one_apple : state :=
  {| counts := [("apple", 1)];
     seen_objects := [("apple", (10, 10, 50, 50))] |}.

Definition two_apples : state :=
  {| counts := [("apple", 2)];
     seen_objects := [("apple", (10, 10, 50, 50));
                      ("apple", (200, 200, 240, 240))] |}.

(** The tally and the prices of the receipt example. *)
Definition sample_tally : list (string * Z) := [("apple", 3); ("cake", 1)].
Definition sample_prices : gmap string Z :=
  list_to_map [("apple", 30); ("cake", 100)].

(** The tally agrees with the stored objects. *)
Definition consistent (st : state) : Prop :=
  ∀ label, tally (counts st) label = count_seen label (seen_objects st).

(** Every key of the tally is a priced label. *)
Definition priced_keys (st : state) : Prop :=
  ∀ k, k ∈ (counts st).*1 → contains PRICE_LIST k = true.

(** The later state extends the earlier one: the stored objects are a
    prefix of the later ones and no count is lower. *)
Definition grows (st st' : state) : Prop :=
  (∃ added, seen_objects st' = seen_objects st ++ added)
  ∧ ∀ label, tally (counts st) label ≤ tally (counts st') label.

(** ** The camera loop, the overlay and the whole run *)

(** One turn of [while True]: what [cap.read()] returns ([ret], and for the
    frame what the model finds in it) and what [cv2.waitKey(1)] returns at
    the end of the turn ([-1] when no key was pressed). *)
Record turn : Type := {
  ret : bool;
  found : list (list Detection);
  pressed : Z
}.

(** [cv2.waitKey(1) & 0xFF == ord("q")]. *)
Definition quit_pressed (k : Z) : bool := Z.land k 255 =? 113.

(** The [while True] loop over the turns the camera delivers; when they are
    used up the capture has no frame left. *)
Fixpoint run_loop (st : state) (feed : list turn) : result state :=
  match feed with
  | [] => Ok st
  | t :: rest =>
      if negb (ret t) then Ok st
      else
        st' ← update st (found t);
        if quit_pressed (pressed t) then Ok st' else run_loop st' rest
  end.

(** [run_cashier]: the loop from the empty state, then the bill. *)
Definition run_cashier (feed : list turn) : result (list line * Z) :=
  st ← run_loop init feed;
  receipt PRICE_LIST (counts st).

(** [f"{v}"] for an integer. *)
Definition str (v : Z) : string := NilZero.string_of_int (Z.to_int v).

(** The running counts written on the frame: [for k, v in counts.items()]
    puts the text [f"{k}: {v}"] at [(10, y)] and moves [y] down by 30. *)
Fixpoint overlay_loop (items : list (string * Z)) (y : Z)
    (drawn : list (string * (Z * Z))) : list (string * (Z * Z)) :=
  match items with
  | [] => drawn
  | (k, v) :: rest =>
      overlay_loop rest (y + 30) (drawn ++ [((k ++ ": " ++ str v)%string, (10, y))])
  end.

Definition overlay (counts : list (string * Z)) : list (string * (Z * Z)) :=
  overlay_loop counts 30 [].

(** ** Notions the further properties are stated with *)

(** [int(q)] for a finite float. *)
Definition trunc (q : Q) : Z := Z.quot (Qnum q) (QDen q).

(** The unit price of a label, [0] for a label without one. *)
Definition price_of (label : string) : Z := default 0 (PRICE_LIST !! label).

(** The prices of the stored objects, added up. *)
Definition seen_value (seen : list (string * box)) : Z :=
  foldr (λ o acc, price_of o.1 + acc) 0 seen.

(** The labels of a list in the order of their first occurrence. *)
Fixpoint first_occurrences (labels : list string) : list string :=
  match labels with
  | [] => []
  | x :: rest => x :: filter (λ y, y ≠ x) (first_occurrences rest)
  end.

(** The detections of a batch that carry a label. *)
Definition only (label : string) (boxes : list Detection) : list Detection :=
  filter (λ d, cls_name d = label) boxes.

(** The stored objects that carry a label. *)
Definition seen_of (label : string) (seen : list (string * box)) : list (string * box) :=
  filter (λ o, o.1 = label) seen.

(** No two stored objects of one label pass the proximity test. *)
Definition separated (seen : list (string * box)) : Prop :=
  ∀ (i j : nat) (label : string) (bi bj : box),
    (i < j)%nat →
    seen !! i = Some (label, bi) →
    seen !! j = Some (label, bj) →
    is_same_object bi bj default_threshold = false.

(** The detection leaves the state as it is: its label has no price, or
    its box is near a stored object of its label. *)
Definition covered (st : state) (d : Detection) : bool :=
  if contains PRICE_LIST (cls_name d) then
    match unpack4 (xyxy d) with
    | Ok b => already_seen (seen_objects st) (cls_name d) b
    | Raise _ => false
    end
  else true.

(** The tally is well kept: its keys are distinct and its counts are at
    least one. *)
Definition well_kept (d : list (string * Z)) : Prop :=
  NoDup d.*1 ∧ ∀ k v, (k, v) ∈ d → 1 ≤ v.

(** The bill line of one entry of the tally. *)
Definition line_of (prices : gmap string Z) (entry : string * Z) : line :=
  {| item := entry.1; count := entry.2;
     price := default 0 (prices !! entry.1);
     line_total := default 0 (prices !! entry.1) * entry.2 |}.

(** A turn the loop goes on after: a frame was read and the key is not q. *)
Definition goes_on (t : turn) : Prop :=
  ret t = true ∧ pressed t `mod` 256 ≠ 113.

(** Further sample inputs. *)
Definition far_banana : Detection := detection "banana" (200, 200, 240, 240).
Definition apple_turn : turn :=
  {| ret := true; found := [[first_apple; keyboard]]; pressed := -1 |}.
Definition banana_quit_turn : turn :=
  {| ret := true; found := [[far_banana; near_apple]]; pressed := 113 + 256 |}.
Definition no_frame_turn : turn :=
  {| ret := false; found := [[far_apple]]; pressed := -1 |}.
Definition unpriced_tally : list (string * Z) :=
  [("apple", 3); ("keyboard", 1); ("cake", 1)].
Definition nan_turn : turn :=
  {| ret := true; found := [[keyboard; nan_apple]]; pressed := -1 |}.
Definition mixed_frame : list (list Detection) :=
  [[first_apple; keyboard]; [far_banana; near_apple]].
Definition apple_and_banana : state :=
  {| counts := [("apple", 1); ("banana", 1)];
     seen_objects := [("apple", (10, 10, 50, 50));
                      ("banana", (200, 200, 240, 240))] |}.

(** * Properties *)

(** ** The result monad *)

Lemma bind_Ok {A B} (m : result A) (f : A → result B) (b : B) :
  m ≫= f = Ok b ↔ ∃ a, m = Ok a ∧ f a = Ok b.
Proof.
  destruct m as [a|e]; simpl; split.
  - intros H. by exists a.
  - by intros (a' & [= <-] & H).
  - intros [=].
  - by intros (a' & [=] & _).
Qed.

Ltac inv_bind H :=
  let a := fresh "s" in
  let Ha := fresh "H" a in
  apply bind_Ok in H; destruct H as (a & Ha & H).

(** ** The proximity test in integers *)

Lemma Qlt_bool_iff (a b : Q) : Qlt_bool a b = true ↔ (a < b)%Q.
Proof. unfold Qlt_bool, Qlt. apply Z.ltb_lt. Qed.

(** Halving both sums and comparing with [t] is comparing the difference
    of the sums with [2 * t]. *)
Lemma half_diff_lt (a b t : Z) :
  Qlt_bool (Qabs (inject_Z a / 2 - inject_Z b / 2)) (inject_Z t)
  = (Z.abs (a - b) <? 2 * t).
Proof.
  unfold Qlt_bool, Qabs, Qminus, Qplus, Qopp, Qdiv, Qmult, Qinv, inject_Z.
  simpl.
  destruct (Z.ltb_spec (Z.abs (a - b)) (2 * t));
    [apply Z.ltb_lt | apply Z.ltb_ge]; lia.
Qed.

Lemma is_same_object_Z (x1 y1 x2 y2 x1b y1b x2b y2b t : Z) :
  is_same_object (x1, y1, x2, y2) (x1b, y1b, x2b, y2b) t
  = (Z.abs ((x1 + x2) - (x1b + x2b)) <? 2 * t)
    && (Z.abs ((y1 + y2) - (y1b + y2b)) <? 2 * t).
Proof. unfold is_same_object. by rewrite !half_diff_lt. Qed.

Lemma is_same_object_centers (box1 box2 : box) (t : Z) :
  is_same_object box1 box2 t
  = Qlt_bool (Qabs (center_x box1 - center_x box2)) (inject_Z t)
    && Qlt_bool (Qabs (center_y box1 - center_y box2)) (inject_Z t).
Proof. by destruct box1 as [[[??]?]?], box2 as [[[??]?]?]. Qed.

Lemma is_same_object_sym (box1 box2 : box) (t : Z) :
  is_same_object box1 box2 t = is_same_object box2 box1 t.
Proof.
  destruct box1 as [[[x1 y1] x2] y2], box2 as [[[x1b y1b] x2b] y2b].
  rewrite !is_same_object_Z. f_equal; f_equal; lia.
Qed.

(** A box is near itself as soon as the threshold is positive. *)
Lemma is_same_object_refl (b : box) (t : Z) :
  0 < t → is_same_object b b t = true.
Proof.
  intros Ht. destruct b as [[[x1 y1] x2] y2]. rewrite is_same_object_Z.
  apply andb_true_iff; split; apply Z.ltb_lt; lia.
Qed.

(** ** The scan over the stored objects *)

Lemma already_seen_true (seen : list (string * box)) (cls : string) (new_box : box) :
  already_seen seen cls new_box = true
  ↔ ∃ prev_box, (cls, prev_box) ∈ seen
      ∧ is_same_object prev_box new_box default_threshold = true.
Proof.
  induction seen as [|[prev_cls prev_box] rest IH]; simpl.
  - split; [done | intros (? & []%elem_of_nil & _)].
  - destruct (String.eqb_spec prev_cls cls) as [->|Hne]; simpl.
    + destruct (is_same_object prev_box new_box default_threshold) eqn:E.
      * split; [intros _ | done]. exists prev_box. split; [left | done].
      * rewrite IH. split; intros (b & Hin & Hb).
        -- exists b. split; [by right | done].
        -- apply elem_of_cons in Hin as [[= ->] | Hin]; [congruence |].
           by exists b.
    + rewrite IH. split; intros (b & Hin & Hb).
      * exists b. split; [by right | done].
      * apply elem_of_cons in Hin as [[= -> ->] | Hin]; [done |].
        by exists b.
Qed.

Lemma already_seen_false (seen : list (string * box)) (cls : string) (new_box : box) :
  already_seen seen cls new_box = false
  ↔ ∀ prev_box, (cls, prev_box) ∈ seen
      → is_same_object prev_box new_box default_threshold = false.
Proof.
  rewrite <- not_true_iff_false, already_seen_true. split.
  - intros H b Hin. apply not_true_iff_false. intros Hb. apply H. by exists b.
  - intros H (b & Hin & Hb). rewrite (H b Hin) in Hb. done.
Qed.

Lemma already_seen_app (seen more : list (string * box)) (cls : string) (b : box) :
  already_seen (seen ++ more) cls b
  = already_seen seen cls b || already_seen more cls b.
Proof.
  induction seen as [|[c pb] rest IH]; simpl; [done |].
  by destruct (String.eqb c cls && is_same_object pb b default_threshold).
Qed.

(** ** The dict [counts] *)

Lemma dict_get_set_eq (k : string) (v : Z) (d : list (string * Z)) :
  dict_get k (dict_set k v d) = Some v.
Proof.
  induction d as [|[k' v'] rest IH]; simpl.
  - by rewrite String.eqb_refl.
  - destruct (String.eqb_spec k' k) as [->|Hne]; simpl.
    + by rewrite String.eqb_refl.
    + by destruct (String.eqb_spec k' k).
Qed.

Lemma dict_get_set_ne (k k0 : string) (v : Z) (d : list (string * Z)) :
  k ≠ k0 → dict_get k0 (dict_set k v d) = dict_get k0 d.
Proof.
  intros Hne. induction d as [|[k' v'] rest IH]; simpl.
  - by destruct (String.eqb_spec k k0).
  - destruct (String.eqb_spec k' k) as [->|Hk]; simpl.
    + by destruct (String.eqb_spec k k0).
    + by rewrite IH.
Qed.

Lemma dict_set_keys (k : string) (v : Z) (d : list (string * Z)) (k0 : string) :
  k0 ∈ (dict_set k v d).*1 ↔ k0 = k ∨ k0 ∈ d.*1.
Proof.
  induction d as [|[k' v'] rest IH]; simpl.
  - set_solver.
  - destruct (String.eqb_spec k' k) as [->|Hk]; csimpl.
    + rewrite !elem_of_cons. tauto.
    + rewrite !elem_of_cons, IH. tauto.
Qed.

Lemma tally_incr_eq (k : string) (d : list (string * Z)) :
  tally (incr k d) k = tally d k + 1.
Proof. unfold incr, tally at 1. by rewrite dict_get_set_eq. Qed.

Lemma tally_incr_ne (k k0 : string) (d : list (string * Z)) :
  k ≠ k0 → tally (incr k d) k0 = tally d k0.
Proof. intros Hne. unfold incr, tally. by rewrite dict_get_set_ne. Qed.

Lemma tally_incr_le (k k0 : string) (d : list (string * Z)) :
  tally d k0 ≤ tally (incr k d) k0.
Proof.
  destruct (decide (k = k0)) as [->|Hne].
  - rewrite tally_incr_eq. lia.
  - by rewrite tally_incr_ne.
Qed.

Lemma count_seen_snoc_eq (label : string) (b : box) (seen : list (string * box)) :
  count_seen label (seen ++ [(label, b)]) = count_seen label seen + 1.
Proof.
  unfold count_seen. rewrite filter_app, length_app, filter_cons_True by done.
  rewrite filter_nil. simpl. lia.
Qed.

Lemma count_seen_snoc_ne (label l0 : string) (b : box) (seen : list (string * box)) :
  label ≠ l0 → count_seen l0 (seen ++ [(label, b)]) = count_seen l0 seen.
Proof.
  intros Hne. unfold count_seen.
  rewrite filter_app, length_app, filter_cons_False by done.
  rewrite filter_nil. simpl. lia.
Qed.

(** ** Unpacking the coordinates *)

Lemma unpack4_detection (label : string) (b : box) :
  unpack4 (xyxy (detection label b)) = Ok b.
Proof.
  destruct b as [[[x1 y1] x2] y2]. unfold unpack4. simpl.
  by rewrite !Z.quot_1_r.
Qed.

Lemma cls_name_detection (label : string) (b : box) :
  cls_name (detection label b) = label.
Proof. by destruct b as [[[??]?]?]. Qed.

Lemma int_of_Ok (c : coord) (z : Z) : int_of c = Ok z → c ≠ NaN.
Proof. by destruct c. Qed.

Lemma pull_Ok (n : nat) (it : list coord) (zs : list Z) :
  pull n it = Ok zs → length zs = (n `min` length it)%nat ∧ NaN ∉ take n it.
Proof.
  revert it zs. induction n as [|n IH]; intros [|c rest] zs; simpl;
    try (intros [= <-]; split; [done | apply not_elem_of_nil]).
  intros H. apply bind_Ok in H as (z & Hz & H).
  apply bind_Ok in H as (zs' & Hzs & [= <-]).
  apply IH in Hzs as [Hlen Hnan]. apply int_of_Ok in Hz.
  split; [simpl; lia |]. rewrite not_elem_of_cons. done.
Qed.

(** Only four coordinates, none of them a NaN, unpack into a box. *)
Lemma unpack4_Ok (it : list coord) (b : box) :
  unpack4 it = Ok b → length it = 4%nat ∧ NaN ∉ it.
Proof.
  unfold unpack4. intros H. apply bind_Ok in H as (zs & Hzs & H).
  apply pull_Ok in Hzs as [Hlen Hnan].
  destruct zs as [|? [|? [|? [|? [|]]]]]; try done.
  cbn [length] in Hlen. assert (length it = 4%nat) as Hit by lia.
  split; [done |]. rewrite firstn_all2 in Hnan by lia. done.
Qed.

(** A malformed box never unpacks. *)
Lemma unpack4_malformed (it : list coord) :
  (length it < 4)%nat ∨ NaN ∈ it → ∃ e, unpack4 it = Raise e.
Proof.
  intros H. destruct (unpack4 it) as [b|e] eqn:E; [| by exists e].
  apply unpack4_Ok in E as [Hlen Hnan]. destruct H; [lia | done].
Qed.

(** ** One detection *)

Lemma process_box_unpriced (st : state) (d : Detection) :
  contains PRICE_LIST (cls_name d) = false → process_box st d = Ok st.
Proof. unfold process_box. by intros ->. Qed.

Lemma process_box_seen (st : state) (d : Detection) (new_box : box) :
  contains PRICE_LIST (cls_name d) = true →
  unpack4 (xyxy d) = Ok new_box →
  already_seen (seen_objects st) (cls_name d) new_box = true →
  process_box st d = Ok st.
Proof. unfold process_box. intros -> -> H. simpl. by rewrite H. Qed.

Lemma process_box_new (st : state) (d : Detection) (new_box : box) :
  contains PRICE_LIST (cls_name d) = true →
  unpack4 (xyxy d) = Ok new_box →
  already_seen (seen_objects st) (cls_name d) new_box = false →
  process_box st d
  = Ok {| counts := incr (cls_name d) (counts st);
          seen_objects := seen_objects st ++ [(cls_name d, new_box)] |}.
Proof. unfold process_box. intros -> -> H. simpl. by rewrite H. Qed.

Lemma process_box_raise (st : state) (d : Detection) (e : exn) :
  contains PRICE_LIST (cls_name d) = true →
  unpack4 (xyxy d) = Raise e →
  process_box st d = Raise e.
Proof. unfold process_box. by intros -> ->. Qed.

(** Whatever [process_box] returns is the state it was given, or that state
    with one count raised and one object appended. *)
Lemma process_box_Ok (st st' : state) (d : Detection) :
  process_box st d = Ok st' →
  st' = st
  ∨ ∃ new_box,
      contains PRICE_LIST (cls_name d) = true
      ∧ unpack4 (xyxy d) = Ok new_box
      ∧ already_seen (seen_objects st) (cls_name d) new_box = false
      ∧ st' = {| counts := incr (cls_name d) (counts st);
                 seen_objects := seen_objects st ++ [(cls_name d, new_box)] |}.
Proof.
  unfold process_box.
  destruct (contains PRICE_LIST (cls_name d)); [| intros [= <-]; by left].
  destruct (unpack4 (xyxy d)) as [new_box|e]; simpl; [| done].
  destruct (already_seen _ _ _) eqn:E; simpl; intros [= <-]; [by left |].
  right. by exists new_box.
Qed.

Lemma process_box_well_formed (st : state) (d : Detection) :
  well_formed d → is_ok (process_box st d) = true.
Proof.
  unfold well_formed, process_box.
  destruct (contains PRICE_LIST (cls_name d)); [| done].
  intros H. specialize (H eq_refl).
  destruct (unpack4 (xyxy d)); simpl in *; [| done].
  by destruct (negb _).
Qed.

(** ** The loops *)

Lemma process_boxes_app (st : state) (pre post : list Detection) :
  process_boxes st (pre ++ post)
  = process_boxes st pre ≫= λ st', process_boxes st' post.
Proof.
  revert st. induction pre as [|d pre IH]; intros st; simpl; [done |].
  destruct (process_box st d); simpl; [apply IH | done].
Qed.

(** The nested loops of a frame run over the detections of all results in
    turn. *)
Lemma update_concat (st : state) (results : list (list Detection)) :
  update st results = process_boxes st (concat results).
Proof.
  revert st. induction results as [|r rest IH]; intros st; simpl; [done |].
  rewrite process_boxes_app.
  destruct (process_boxes st r); simpl; [apply IH | done].
Qed.

Lemma run_frames_app (st : state) (fs1 fs2 : list (list (list Detection))) :
  run_frames st (fs1 ++ fs2)
  = run_frames st fs1 ≫= λ st', run_frames st' fs2.
Proof.
  revert st. induction fs1 as [|f fs1 IH]; intros st; simpl; [done |].
  destruct (update st f); simpl; [apply IH | done].
Qed.

(** A relation between the states before and after that one detection
    establishes holds across a batch, a frame and a session. *)
Section Lifting.
Variable R : state → state → Prop.
Hypothesis R_refl : ∀ st, R st st.
Hypothesis R_trans : ∀ s1 s2 s3, R s1 s2 → R s2 s3 → R s1 s3.
Hypothesis R_step : ∀ st d st', process_box st d = Ok st' → R st st'.

Lemma process_boxes_lift (st st' : state) (boxes : list Detection) :
  process_boxes st boxes = Ok st' → R st st'.
Proof using R_refl R_trans R_step.
  revert st. induction boxes as [|d rest IH]; intros st; simpl.
  - intros [= <-]. apply R_refl.
  - intros H. apply bind_Ok in H as (s1 & H1 & H).
    eapply R_trans; [by eapply R_step | by apply IH].
Qed.

Lemma update_lift (st st' : state) (results : list (list Detection)) :
  update st results = Ok st' → R st st'.
Proof using R_refl R_trans R_step.
  rewrite update_concat. apply process_boxes_lift.
Qed.

Lemma run_frames_lift (st st' : state) (frames : list (list (list Detection))) :
  run_frames st frames = Ok st' → R st st'.
Proof using R_refl R_trans R_step.
  revert st. induction frames as [|f rest IH]; intros st; simpl.
  - intros [= <-]. apply R_refl.
  - intros H. apply bind_Ok in H as (s1 & H1 & H).
    eapply R_trans; [by eapply update_lift | by apply IH].
Qed.
End Lifting.

(** Well-formed detections never make the loops raise. *)
Lemma process_boxes_well_formed (st : state) (boxes : list Detection) :
  Forall well_formed boxes → is_ok (process_boxes st boxes) = true.
Proof.
  intros H. revert st. induction H as [|d rest Hd _ IH]; intros st; simpl; [done |].
  pose proof (process_box_well_formed st d Hd) as Hok.
  destruct (process_box st d); simpl; [apply IH | done].
Qed.

Lemma update_well_formed (st : state) (results : list (list Detection)) :
  Forall (Forall well_formed) results → is_ok (update st results) = true.
Proof.
  intros H. revert st. induction H as [|r rest Hr _ IH]; intros st; simpl; [done |].
  pose proof (process_boxes_well_formed st r Hr) as Hok.
  destruct (process_boxes st r); simpl; [apply IH | done].
Qed.

Lemma run_frames_well_formed (st : state) (frames : list (list (list Detection))) :
  Forall (Forall (Forall well_formed)) frames → is_ok (run_frames st frames) = true.
Proof.
  intros H. revert st. induction H as [|f rest Hf _ IH]; intros st; simpl; [done |].
  pose proof (update_well_formed st f Hf) as Hok.
  destruct (update st f); simpl; [apply IH | done].
Qed.

Lemma run_frames_concat (st : state) (frames : list (list (list Detection))) :
  run_frames st frames = process_boxes st (concat (concat frames)).
Proof.
  revert st. induction frames as [|f rest IH]; intros st; simpl; [done |].
  rewrite concat_app, process_boxes_app, update_concat.
  destruct (process_boxes st (concat f)); simpl; [apply IH | done].
Qed.

(** ** What a session preserves *)

Lemma grows_refl (st : state) : grows st st.
Proof. split; [exists []; by rewrite app_nil_r | done]. Qed.

Lemma grows_trans (s1 s2 s3 : state) : grows s1 s2 → grows s2 s3 → grows s1 s3.
Proof.
  intros [[a1 H1] L1] [[a2 H2] L2]. split.
  - exists (a1 ++ a2). by rewrite H2, H1, app_assoc.
  - intros l. specialize (L1 l). specialize (L2 l). lia.
Qed.

Lemma process_box_grows (st : state) (d : Detection) (st' : state) :
  process_box st d = Ok st' → grows st st'.
Proof.
  intros [->|(b & _ & _ & _ & ->)]%process_box_Ok; [apply grows_refl |].
  split; simpl; [by eexists | intros l; apply tally_incr_le].
Qed.

Lemma process_box_consistent (st : state) (d : Detection) (st' : state) :
  process_box st d = Ok st' → consistent st → consistent st'.
Proof.
  intros [->|(b & _ & _ & _ & ->)]%process_box_Ok Hst; [done |].
  intros l. simpl. destruct (decide (cls_name d = l)) as [<-|Hne].
  - rewrite tally_incr_eq, count_seen_snoc_eq. by rewrite Hst.
  - rewrite tally_incr_ne, count_seen_snoc_ne by done. apply Hst.
Qed.

Lemma process_box_priced_keys (st : state) (d : Detection) (st' : state) :
  process_box st d = Ok st' → priced_keys st → priced_keys st'.
Proof.
  intros [->|(b & Hp & _ & _ & ->)]%process_box_Ok Hst; [done |].
  intros k. simpl. unfold incr. rewrite dict_set_keys.
  intros [->|Hk]; [done | by apply Hst].
Qed.

Lemma consistent_init : consistent init.
Proof. done. Qed.

Lemma priced_keys_init : priced_keys init.
Proof. intros k []%elem_of_nil. Qed.

(** A session that started empty only has priced labels in its tally. *)
Lemma run_frames_priced_keys (frames : list (list (list Detection))) (st : state) :
  run_frames init frames = Ok st → priced_keys st.
Proof.
  intros H.
  refine (run_frames_lift (λ s s', priced_keys s → priced_keys s')
            _ _ process_box_priced_keys _ _ _ H priced_keys_init); auto.
Qed.

(** ** The frame loop, detection by detection *)

(** C1. In a call to [update], when the loop reaches a detection with a
    priced label and box [new_box]: the detection is processed without
    an error; if a stored object of the same label passes the proximity
    test against [new_box], the state is left as it is; if none does, the
    count of that label goes up by exactly one, the other counts stay, and
    the object [(label, new_box)] is appended to the stored sequence. *)
Theorem update_detection
    (st : state) (results : list (list Detection))
    (pre post : list Detection) (d : Detection) (new_box : box) (s1 : state) :
  concat results = pre ++ d :: post →
  process_boxes st pre = Ok s1 →
  contains PRICE_LIST (cls_name d) = true →
  unpack4 (xyxy d) = Ok new_box →
  ∃ s2,
    process_box s1 d = Ok s2
    ∧ update st results = process_boxes s2 post
    ∧ ((∃ prev_box, (cls_name d, prev_box) ∈ seen_objects s1
          ∧ is_same_object prev_box new_box default_threshold = true)
       → s2 = s1)
    ∧ ((∀ prev_box, (cls_name d, prev_box) ∈ seen_objects s1
          → is_same_object prev_box new_box default_threshold = false)
       → tally (counts s2) (cls_name d) = tally (counts s1) (cls_name d) + 1
         ∧ (∀ label, label ≠ cls_name d
              → tally (counts s2) label = tally (counts s1) label)
         ∧ seen_objects s2 = seen_objects s1 ++ [(cls_name d, new_box)]).
Proof.
  intros Hres Hpre Hpriced Hbox.
  assert (∀ s2, process_box s1 d = Ok s2 →
            update st results = process_boxes s2 post) as Hrun.
  { intros s2 Hs2. rewrite update_concat, Hres, process_boxes_app, Hpre.
    simpl. by rewrite Hs2. }
  destruct (already_seen (seen_objects s1) (cls_name d) new_box) eqn:E.
  - exists s1. pose proof (process_box_seen s1 d new_box Hpriced Hbox E) as Hd.
    split; [done |]. split; [by apply Hrun |]. split; [done |].
    intros Hnone. apply already_seen_true in E as (b & Hin & Hb).
    rewrite (Hnone b Hin) in Hb. done.
  - pose proof (process_box_new s1 d new_box Hpriced Hbox E) as Hd.
    eexists. split; [exact Hd |]. split; [by apply Hrun |]. split.
    + intros Hsome. apply already_seen_true in Hsome. congruence.
    + intros _. simpl. split; [apply tally_incr_eq |]. split; [| done].
      intros l Hl. by apply tally_incr_ne.
Qed.

(** C2. After every sequence of frames processed from the empty state, and
    so after each call of the sequence, the count of every label is the
    number of stored objects with that label. *)
Theorem tally_counts_seen_objects
    (frames : list (list (list Detection))) (st : state) :
  run_frames init frames = Ok st →
  ∀ label, tally (counts st) label = count_seen label (seen_objects st).
Proof.
  intros H.
  refine (run_frames_lift (λ s s', consistent s → consistent s')
            _ _ process_box_consistent _ _ _ H consistent_init); auto.
Qed.

(** C4. Across any sequence of frames the stored objects only grow: the
    sequence after is the sequence before with objects appended, so every
    entry is still there, unchanged, at its position; and no count
    decreases. *)
Theorem seen_objects_only_grow
    (st : state) (frames : list (list (list Detection))) (st' : state) :
  run_frames st frames = Ok st' →
  (∃ added, seen_objects st' = seen_objects st ++ added)
  ∧ (∀ (i : nat) (o : string * box),
       seen_objects st !! i = Some o → seen_objects st' !! i = Some o)
  ∧ (∀ label, tally (counts st) label ≤ tally (counts st') label).
Proof.
  intros H.
  apply (run_frames_lift grows grows_refl grows_trans process_box_grows) in H.
  destruct H as [[added Hadd] Hle]. split; [by exists added |]. split; [| done].
  intros i o Hi. rewrite Hadd. by apply lookup_app_l_Some.
Qed.

(** ** The threshold of the proximity test *)

Lemma Qlt_bool_false (a b : Q) : Qlt_bool a b = false ↔ ¬ (a < b)%Q.
Proof. rewrite <- Qlt_bool_iff. by destruct (Qlt_bool a b). Qed.

Lemma half_binary64 (a : Z) : Z.abs a ≤ 2 ^ 53 → binary64 (inject_Z a / 2).
Proof.
  intros Ha. exists a, (-1). split; [done |]. split; [lia |].
  unfold Qeq, Qdiv, Qmult, Qinv, inject_Z. simpl. lia.
Qed.

(** In the exact range nothing rounds: the centres and the differences of
    the centres of two boxes are doubles. *)
Lemma exact_range_binary64 (box1 box2 : box) :
  exact_range box1 →
  exact_range box2 →
  binary64 (center_x box1) ∧ binary64 (center_y box1)
  ∧ binary64 (center_x box2) ∧ binary64 (center_y box2)
  ∧ binary64 (center_x box1 - center_x box2)
  ∧ binary64 (center_y box1 - center_y box2).
Proof.
  destruct box1 as [[[x1 y1] x2] y2], box2 as [[[x1b y1b] x2b] y2b].
  intros [Hx Hy] [Hxb Hyb]. unfold center_x, center_y.
  assert (∀ a b : Z, Z.abs (a - b) ≤ 2 ^ 53 →
            binary64 (inject_Z a / 2 - inject_Z b / 2)) as Hdiff.
  { intros a b Hab. destruct (half_binary64 (a - b) Hab) as (m & e & Hm & He & Hq).
    exists m, e. split; [done |]. split; [done |]. rewrite <- Hq.
    unfold Qeq, Qminus, Qplus, Qopp, Qdiv, Qmult, Qinv, inject_Z. simpl. lia. }
  repeat split; try (apply half_binary64; lia); apply Hdiff; lia.
Qed.

(** C3. For boxes in the range where the doubles of the source are exact
    (coordinate sums up to 2^52, so every box of pixel coordinates): two
    boxes are the same object exactly when the centres differ by strictly
    less than the threshold on both axes. At a difference of exactly the
    threshold on both axes the test fails, and the frame loop (threshold
    50) stores a same-label detection as a second object; at the threshold
    minus one on both axes the test passes, and the frame loop leaves the
    state as it is. *)
Theorem is_same_object_strict_threshold (box1 box2 : box) (threshold : Z) :
  exact_range box1 →
  exact_range box2 →
  (is_same_object box1 box2 threshold = true
   ↔ (Qabs (center_x box1 - center_x box2) < inject_Z threshold)%Q
     ∧ (Qabs (center_y box1 - center_y box2) < inject_Z threshold)%Q)
  ∧ ((Qabs (center_x box1 - center_x box2) == inject_Z threshold)%Q →
     (Qabs (center_y box1 - center_y box2) == inject_Z threshold)%Q →
     is_same_object box1 box2 threshold = false
     ∧ ∀ label n,
         threshold = default_threshold →
         contains PRICE_LIST label = true →
         process_box {| counts := [(label, n)];
                        seen_objects := [(label, box1)] |}
                     (detection label box2)
         = Ok {| counts := [(label, n + 1)];
                 seen_objects := [(label, box1); (label, box2)] |})
  ∧ ((Qabs (center_x box1 - center_x box2) == inject_Z (threshold - 1))%Q →
     (Qabs (center_y box1 - center_y box2) == inject_Z (threshold - 1))%Q →
     is_same_object box1 box2 threshold = true
     ∧ ∀ label n,
         threshold = default_threshold →
         contains PRICE_LIST label = true →
         process_box {| counts := [(label, n)];
                        seen_objects := [(label, box1)] |}
                     (detection label box2)
         = Ok {| counts := [(label, n)];
                 seen_objects := [(label, box1)] |}).
Proof.
  intros _ _. rewrite is_same_object_centers. split; [| split].
  - by rewrite andb_true_iff, !Qlt_bool_iff.
  - intros Hx Hy.
    assert (is_same_object box1 box2 threshold = false) as Hfar.
    { rewrite is_same_object_centers. apply andb_false_iff. left.
      apply Qlt_bool_false. rewrite Hx. apply Qlt_irrefl. }
    split; [by rewrite <- is_same_object_centers |].
    intros label n -> Hpriced.
    rewrite (process_box_new _ _ box2); rewrite ?cls_name_detection; simpl;
      [| done | apply unpack4_detection | by rewrite String.eqb_refl, Hfar].
    unfold incr, tally. simpl. by rewrite String.eqb_refl.
  - intros Hx Hy.
    assert (inject_Z (threshold - 1) < inject_Z threshold)%Q as Hlt.
    { rewrite <- Zlt_Qlt. lia. }
    assert (is_same_object box1 box2 threshold = true) as Hnear.
    { rewrite is_same_object_centers. apply andb_true_iff.
      split; apply Qlt_bool_iff; [by rewrite Hx | by rewrite Hy]. }
    split; [by rewrite <- is_same_object_centers |].
    intros label n -> Hpriced.
    apply (process_box_seen _ _ box2); rewrite ?cls_name_detection;
      [done | apply unpack4_detection |].
    simpl. by rewrite String.eqb_refl, Hnear.
Qed.

(** ** Repeated and ignored detections *)

(** A detection that matches a stored object leaves a whole run of its
    copies without effect. *)
Lemma process_boxes_replicate_seen (st : state) (d : Detection) (b : box) (n : nat) :
  contains PRICE_LIST (cls_name d) = true →
  unpack4 (xyxy d) = Ok b →
  already_seen (seen_objects st) (cls_name d) b = true →
  process_boxes st (replicate n d) = Ok st.
Proof.
  intros Hp Hb Hs. induction n as [|n IH]; simpl; [done |].
  by rewrite (process_box_seen st d b Hp Hb Hs).
Qed.

Lemma concat_replicate_singleton {A} (n : nat) (x : A) :
  concat (replicate n [x]) = replicate n x.
Proof. induction n as [|n IH]; simpl; [done | by rewrite IH]. Qed.

(** C5. The same priced detection fed [N >= 1] times in a row, one frame
    each or all in one frame, to a state that holds no object of its label
    near its box, raises the count of the label by exactly one: the first
    copy is stored, the others match it. *)
Theorem repeated_detection_counts_once
    (N : nat) (st : state) (d : Detection) (b : box) :
  (1 ≤ N)%nat →
  contains PRICE_LIST (cls_name d) = true →
  unpack4 (xyxy d) = Ok b →
  (∀ prev_box, (cls_name d, prev_box) ∈ seen_objects st
     → is_same_object prev_box b default_threshold = false) →
  ∃ st',
    run_frames st (replicate N [[d]]) = Ok st'
    ∧ update st [replicate N d] = Ok st'
    ∧ tally (counts st') (cls_name d) = tally (counts st) (cls_name d) + 1
    ∧ (∀ label, label ≠ cls_name d
         → tally (counts st') label = tally (counts st) label)
    ∧ seen_objects st' = seen_objects st ++ [(cls_name d, b)].
Proof.
  intros HN Hp Hb Hnone. apply already_seen_false in Hnone.
  eexists. rewrite run_frames_concat, update_concat.
  rewrite concat_replicate_singleton. simpl. rewrite app_nil_r.
  rewrite concat_replicate_singleton.
  destruct N as [|n]; [lia |]. simpl.
  rewrite (process_box_new st d b Hp Hb Hnone). simpl.
  rewrite (process_boxes_replicate_seen _ d b n Hp Hb).
  - repeat split; simpl; [apply tally_incr_eq |].
    intros l Hl. by apply tally_incr_ne.
  - simpl. rewrite already_seen_app. apply orb_true_iff. right. simpl.
    rewrite String.eqb_refl. simpl.
    by rewrite is_same_object_refl.
Qed.

(** C6. A detection whose label is not priced leaves the tally and the
    stored objects as they are, wherever it stands in a frame: the frame
    does what it does without that detection. A frame without detections
    is a no-op. *)
Theorem unpriced_detection_ignored (st : state) (d : Detection) :
  contains PRICE_LIST (cls_name d) = false →
  process_box st d = Ok st
  ∧ update st [[d]] = Ok st
  ∧ (∀ s pre post,
       process_boxes s (pre ++ d :: post) = process_boxes s (pre ++ post))
  ∧ update st [] = Ok st
  ∧ update st [[]] = Ok st.
Proof.
  intros Hd. pose proof (λ s, process_box_unpriced s d Hd) as Hskip.
  split; [apply Hskip |]. split; [simpl; by rewrite Hskip |].
  split; [| done].
  intros s pre post. rewrite !process_boxes_app.
  destruct (process_boxes s pre) as [s1|e]; simpl; [| done].
  by rewrite Hskip.
Qed.

(** ** Malformed detections *)

(** C7, as the code has it. A malformed detection with a label outside the
    price table is skipped silently, whatever its box and wherever it
    stands in the frame: the state is left as it is, nothing is raised and
    the frame goes on with the detections after it. A malformed detection
    with a priced label, that is one with a coordinate missing or NaN, is
    not skipped: unpacking its coordinates raises, and wherever the
    detection stands in the frame the exception ends the batch, the call
    of [update] that reached it and the session, and no state results. *)
Theorem malformed_detection (st : state) (d : Detection) :
  malformed d →
  (contains PRICE_LIST (cls_name d) = false →
   process_box st d = Ok st
   ∧ (∀ s0 results pre post,
        concat results = pre ++ d :: post →
        process_boxes s0 pre = Ok st →
        update s0 results = process_boxes st post))
  ∧ (contains PRICE_LIST (cls_name d) = true →
     ∃ e, process_box st d = Raise e
          ∧ (∀ post, process_boxes st (d :: post) = Raise e)
          ∧ (∀ post rest, update st ((d :: post) :: rest) = Raise e)
          ∧ (∀ s0 results pre post,
               concat results = pre ++ d :: post →
               process_boxes s0 pre = Ok st →
               update s0 results = Raise e)
          ∧ (∀ s0 before sb results after pre post,
               run_frames s0 before = Ok sb →
               concat results = pre ++ d :: post →
               process_boxes sb pre = Ok st →
               run_frames s0 (before ++ results :: after) = Raise e)).
Proof.
  intros Hbad.
  assert (∀ s0 results pre post,
            concat results = pre ++ d :: post →
            process_boxes s0 pre = Ok st →
            update s0 results = process_box st d ≫= λ s, process_boxes s post)
    as Hreach.
  { intros s0 results pre post Hres Hpre.
    by rewrite update_concat, Hres, process_boxes_app, Hpre. }
  split.
  - intros Hun. pose proof (process_box_unpriced st d Hun) as Hd.
    split; [done |]. intros s0 results pre post Hres Hpre.
    by rewrite (Hreach _ _ _ _ Hres Hpre), Hd.
  - intros Hp. destruct Hbad as [Hun | Hbox]; [congruence |].
    destruct (unpack4_malformed _ Hbox) as [e He].
    pose proof (process_box_raise st d e Hp He) as Hd.
    exists e. split; [done |].
    split; [intros; simpl; by rewrite Hd |].
    split; [intros; simpl; by rewrite Hd |].
    split.
    + intros s0 results pre post Hres Hpre.
      by rewrite (Hreach _ _ _ _ Hres Hpre), Hd.
    + intros s0 before sb results after pre post Hbefore Hres Hpre.
      rewrite run_frames_app, Hbefore. simpl.
      by rewrite (Hreach _ _ _ _ Hres Hpre), Hd.
Qed.

(** ** The final bill *)

Lemma bill_loop_spec (prices : gmap string Z) (items : list (string * Z))
    (printed : list line) (subtotal : Z) :
  (∀ k, k ∈ items.*1 → is_Some (prices !! k)) →
  ∃ lines,
    bill_loop prices items printed subtotal
    = Ok (printed ++ lines, subtotal + sum_totals lines)
    ∧ (λ ln, (item ln, count ln)) <$> lines = items
    ∧ Forall (λ ln, prices !! item ln = Some (price ln)
                    ∧ line_total ln = price ln * count ln) lines.
Proof.
  revert printed subtotal.
  induction items as [|[k c] rest IH]; intros printed subtotal Hkeys.
  - exists []. simpl. rewrite app_nil_r, Z.add_0_r. done.
  - destruct (Hkeys k) as [p Hp]; [left |].
    destruct (IH (printed ++ [{| item := k; count := c; price := p;
                                 line_total := p * c |}])
                 (subtotal + p * c)) as (lines & Hrun & Hitems & Hlines).
    { intros k' Hk'. apply Hkeys. by right. }
    exists ({| item := k; count := c; price := p; line_total := p * c |} :: lines).
    simpl. rewrite Hp, Hrun, <- app_assoc. simpl.
    change (sum_totals (?ln :: lines)) with (line_total ln + sum_totals lines).
    simpl. rewrite Z.add_assoc. split; [done |].
    split; [by rewrite <- Hitems |].
    constructor; [done | exact Hlines].
Qed.

(** The bill of a session that started empty never misses a price. *)
Lemma receipt_of_session (frames : list (list (list Detection))) (st : state) :
  run_frames init frames = Ok st →
  is_ok (receipt PRICE_LIST (counts st)) = true.
Proof.
  intros H%run_frames_priced_keys.
  unfold receipt.
  destruct (bill_loop_spec PRICE_LIST (counts st) [] 0) as (lines & -> & _); [| done].
  intros k Hk%H. unfold contains in Hk. by destruct (PRICE_LIST !! k).
Qed.

(** C8. For a tally whose labels all have a price, the bill has one line
    per label of the tally, in its order, with line total = unit price
    times count, and the total is the sum of the line totals. For the
    tally apple 3, cake 1 and the prices apple 30, cake 100, of the sample
    as of [PRICE_LIST], the line totals are 90 and 100 and the total is
    190. *)
Theorem receipt_arithmetic :
  (∀ (prices : gmap string Z) (counts : list (string * Z)),
     (∀ k, k ∈ counts.*1 → is_Some (prices !! k)) →
     ∃ lines,
       receipt prices counts = Ok (lines, sum_totals lines)
       ∧ (λ ln, (item ln, count ln)) <$> lines = counts
       ∧ Forall (λ ln, prices !! item ln = Some (price ln)
                       ∧ line_total ln = price ln * count ln) lines)
  ∧ receipt sample_prices sample_tally
    = Ok ([ {| item := "apple"; count := 3; price := 30; line_total := 90 |};
            {| item := "cake"; count := 1; price := 100; line_total := 100 |} ],
          190)
  ∧ receipt PRICE_LIST sample_tally = receipt sample_prices sample_tally.
Proof.
  split; [| by vm_compute].
  intros prices counts Hkeys.
  destruct (bill_loop_spec prices counts [] 0 Hkeys) as (lines & Hrun & Hrest).
  exists lines. split; [| done]. unfold receipt. by rewrite Hrun.
Qed.

(** ** Within one frame *)

(** C9. Within one frame: when a priced detection [d1] is confirmed, it is
    stored at once, so a later detection [d2] of the same frame with the
    same label and a box that passes the proximity test against the box of
    [d1] is merged: the frame ends in the state it would end in without
    [d2]. Two such detections alone count once. *)
Theorem same_frame_duplicate_merged
    (st : state) (d1 d2 : Detection) (mid : list Detection)
    (b1 b2 : box) (s1 : state) :
  contains PRICE_LIST (cls_name d1) = true →
  unpack4 (xyxy d1) = Ok b1 →
  (∀ prev_box, (cls_name d1, prev_box) ∈ seen_objects st
     → is_same_object prev_box b1 default_threshold = false) →
  cls_name d2 = cls_name d1 →
  unpack4 (xyxy d2) = Ok b2 →
  is_same_object b1 b2 default_threshold = true →
  process_boxes st (d1 :: mid) = Ok s1 →
  (cls_name d1, b1) ∈ seen_objects s1
  ∧ process_box s1 d2 = Ok s1
  ∧ update st [d1 :: mid ++ [d2]] = Ok s1
  ∧ ∃ s, update st [[d1; d2]] = Ok s
         ∧ tally (counts s) (cls_name d1) = tally (counts st) (cls_name d1) + 1
         ∧ seen_objects s = seen_objects st ++ [(cls_name d1, b1)].
Proof.
  intros Hp Hb1 Hnew%already_seen_false Hcls Hb2 Hnear Hrun.
  pose proof (process_box_new st d1 b1 Hp Hb1 Hnew) as Hd1.
  assert (∀ s, (cls_name d1, b1) ∈ seen_objects s → process_box s d2 = Ok s)
    as Hmerge.
  { intros s Hin. apply (process_box_seen s d2 b2); rewrite ?Hcls; [done.. |].
    apply already_seen_true. by exists b1. }
  simpl in Hrun. rewrite Hd1 in Hrun. simpl in Hrun.
  assert ((cls_name d1, b1) ∈ seen_objects s1) as Hin.
  { apply (process_boxes_lift grows grows_refl grows_trans process_box_grows)
      in Hrun as [[added Hadd] _].
    rewrite Hadd. simpl. set_solver. }
  split; [done |]. split; [by apply Hmerge |]. split.
  - simpl. rewrite Hd1. simpl. rewrite process_boxes_app, Hrun. simpl.
    by rewrite Hmerge.
  - eexists. simpl. rewrite Hd1. simpl. rewrite Hmerge; simpl.
    + split; [done |]. split; [apply tally_incr_eq | done].
    + set_solver.
Qed.

(** C10. The result of a frame depends on the order of its detections:
    three apples whose centres lie 0, 40 and 80 pixels along the x axis
    give a count of 2 in that order and a count of 1 when the middle one
    comes first. *)
Theorem update_depends_on_order :
  [apple_at 0; apple_at 40; apple_at 80] ≡ₚ [apple_at 40; apple_at 0; apple_at 80]
  ∧ (∃ s, update init [[apple_at 0; apple_at 40; apple_at 80]] = Ok s
          ∧ tally (counts s) "apple" = 2)
  ∧ (∃ s, update init [[apple_at 40; apple_at 0; apple_at 80]] = Ok s
          ∧ tally (counts s) "apple" = 1).
Proof.
  split; [apply perm_swap |].
  split; eexists; (split; [by vm_compute | by vm_compute]).
Qed.

(** So [update] is not invariant under a permutation of the frame. *)
Lemma update_not_permutation_invariant :
  ¬ (∀ st batch1 batch2,
       batch1 ≡ₚ batch2 → update st [batch1] = update st [batch2]).
Proof.
  intros H.
  specialize (H init [apple_at 0; apple_at 40; apple_at 80]
                     [apple_at 40; apple_at 0; apple_at 80] (perm_swap _ _ _)).
  vm_compute in H. discriminate H.
Qed.

(** ** Sample runs *)

(** C7 as stated fails: a priced detection with a NaN coordinate, and one
    with a coordinate missing, are malformed and are not skipped; the call
    raises. *)
Lemma malformed_priced_detection_raises :
  malformed nan_apple
  ∧ update init [[nan_apple]] = Raise ValueError
  ∧ malformed short_apple
  ∧ update init [[short_apple]] = Raise ValueError
  ∧ ¬ (∀ st d, malformed d → process_box st d = Ok st).
Proof.
  assert (malformed nan_apple) as Hnan.
  { right. right. unfold nan_apple. simpl. set_solver. }
  split; [done |]. split; [by vm_compute |].
  split; [right; left; simpl; lia |]. split; [by vm_compute |].
  intros H. specialize (H init nan_apple Hnan). vm_compute in H. discriminate H.
Qed.

(** The second sighting of the apple, two pixels further, reaches a state
    that holds the first: it is processed and changes nothing. *)
Lemma update_detection_near_apple :
  ∃ s2,
    process_box one_apple near_apple = Ok s2
    ∧ update init [[first_apple; near_apple]] = process_boxes s2 []
    ∧ ((∃ prev_box, (cls_name near_apple, prev_box) ∈ seen_objects one_apple
          ∧ is_same_object prev_box (12, 11, 52, 51) default_threshold = true)
       → s2 = one_apple)
    ∧ ((∀ prev_box, (cls_name near_apple, prev_box) ∈ seen_objects one_apple
          → is_same_object prev_box (12, 11, 52, 51) default_threshold = false)
       → tally (counts s2) (cls_name near_apple)
         = tally (counts one_apple) (cls_name near_apple) + 1
         ∧ (∀ label, label ≠ cls_name near_apple
              → tally (counts s2) label = tally (counts one_apple) label)
         ∧ seen_objects s2
           = seen_objects one_apple ++ [(cls_name near_apple, (12, 11, 52, 51))]).
Proof.
  apply (update_detection init [[first_apple; near_apple]]
           [first_apple] [] near_apple (12, 11, 52, 51) one_apple);
    vm_compute; reflexivity.
Defined.

(** The three frames end with two apples counted and two stored. *)
Lemma tally_counts_seen_objects_three_frames :
  run_frames init three_frames = Ok two_apples
  ∧ ∀ label, tally (counts two_apples) label
             = count_seen label (seen_objects two_apples).
Proof.
  split; [vm_compute; reflexivity |].
  apply (tally_counts_seen_objects three_frames two_apples).
  vm_compute; reflexivity.
Defined.

(** Boxes whose centres are 50 apart on both axes are distinct, boxes whose
    centres are 49 apart are the same object. *)
Lemma is_same_object_at_50_and_49 :
  is_same_object (10, 10, 50, 50) (60, 60, 100, 100) 50 = false
  ∧ is_same_object (10, 10, 50, 50) (59, 59, 99, 99) 50 = true.
Proof.
  split.
  - destruct (is_same_object_strict_threshold
                (10, 10, 50, 50) (60, 60, 100, 100) 50) as (_ & Hfar & _);
      [by vm_compute | by vm_compute |].
    apply Hfar; vm_compute; reflexivity.
  - destruct (is_same_object_strict_threshold
                (10, 10, 50, 50) (59, 59, 99, 99) 50) as (_ & _ & Hnear);
      [by vm_compute | by vm_compute |].
    apply Hnear; vm_compute; reflexivity.
Defined.

(** From one apple to two over the last two of the three frames: the first
    apple stays where it is. *)
Lemma seen_objects_only_grow_two_frames :
  run_frames one_apple [[[near_apple]]; [[far_apple]]] = Ok two_apples
  ∧ (∃ added, seen_objects two_apples = seen_objects one_apple ++ added)
  ∧ (∀ (i : nat) (o : string * box),
       seen_objects one_apple !! i = Some o → seen_objects two_apples !! i = Some o)
  ∧ (∀ label, tally (counts one_apple) label ≤ tally (counts two_apples) label).
Proof.
  split; [vm_compute; reflexivity |].
  apply (seen_objects_only_grow one_apple [[[near_apple]]; [[far_apple]]] two_apples).
  vm_compute; reflexivity.
Defined.

(** The far apple fed three times to a state that holds the first apple. *)
Lemma repeated_far_apple_counts_once :
  ∃ st',
    run_frames one_apple (replicate 3 [[far_apple]]) = Ok st'
    ∧ update one_apple [replicate 3 far_apple] = Ok st'
    ∧ tally (counts st') (cls_name far_apple)
      = tally (counts one_apple) (cls_name far_apple) + 1
    ∧ (∀ label, label ≠ cls_name far_apple
         → tally (counts st') label = tally (counts one_apple) label)
    ∧ seen_objects st'
      = seen_objects one_apple ++ [(cls_name far_apple, (200, 200, 240, 240))].
Proof.
  apply (repeated_detection_counts_once 3 one_apple far_apple (200, 200, 240, 240)).
  - lia.
  - vm_compute; reflexivity.
  - vm_compute; reflexivity.
  - apply already_seen_false. vm_compute; reflexivity.
Defined.

(** A keyboard shown to a state that holds an apple. *)
Lemma keyboard_ignored :
  contains PRICE_LIST (cls_name keyboard) = false
  ∧ process_box one_apple keyboard = Ok one_apple
  ∧ update one_apple [[keyboard]] = Ok one_apple
  ∧ (∀ s pre post,
       process_boxes s (pre ++ keyboard :: post) = process_boxes s (pre ++ post))
  ∧ update one_apple [] = Ok one_apple
  ∧ update one_apple [[]] = Ok one_apple.
Proof.
  split; [vm_compute; reflexivity |].
  apply (unpriced_detection_ignored one_apple keyboard).
  vm_compute; reflexivity.
Defined.

(** The apple with a NaN coordinate, reached after the first apple has been
    stored: its label is priced, the call raises. *)
Lemma malformed_detection_nan_apple :
  (contains PRICE_LIST (cls_name nan_apple) = false →
   process_box one_apple nan_apple = Ok one_apple
   ∧ (∀ s0 results pre post,
        concat results = pre ++ nan_apple :: post →
        process_boxes s0 pre = Ok one_apple →
        update s0 results = process_boxes one_apple post))
  ∧ (contains PRICE_LIST (cls_name nan_apple) = true →
     ∃ e, process_box one_apple nan_apple = Raise e
          ∧ (∀ post, process_boxes one_apple (nan_apple :: post) = Raise e)
          ∧ (∀ post rest, update one_apple ((nan_apple :: post) :: rest) = Raise e)
          ∧ (∀ s0 results pre post,
               concat results = pre ++ nan_apple :: post →
               process_boxes s0 pre = Ok one_apple →
               update s0 results = Raise e)
          ∧ (∀ s0 before sb results after pre post,
               run_frames s0 before = Ok sb →
               concat results = pre ++ nan_apple :: post →
               process_boxes sb pre = Ok one_apple →
               run_frames s0 (before ++ results :: after) = Raise e)).
Proof.
  apply (malformed_detection one_apple nan_apple).
  right. right. apply elem_of_cons. right. apply elem_of_cons. by left.
Defined.

(** The bill of the sample tally through the general statement. *)
Lemma receipt_arithmetic_sample :
  ∃ lines,
    receipt sample_prices sample_tally = Ok (lines, sum_totals lines)
    ∧ (λ ln, (item ln, count ln)) <$> lines = sample_tally
    ∧ Forall (λ ln, sample_prices !! item ln = Some (price ln)
                    ∧ line_total ln = price ln * count ln) lines.
Proof.
  destruct receipt_arithmetic as [Hgen _].
  apply (Hgen sample_prices sample_tally).
  intros k Hk. apply elem_of_cons in Hk as [-> | Hk]; [vm_compute; eauto |].
  apply elem_of_cons in Hk as [-> | Hk]; [vm_compute; eauto |].
  by apply elem_of_nil in Hk.
Defined.

(** The apple, a keyboard and the apple two pixels further in one frame. *)
Lemma same_frame_duplicate_merged_sample :
  (cls_name first_apple, (10, 10, 50, 50)) ∈ seen_objects one_apple
  ∧ process_box one_apple near_apple = Ok one_apple
  ∧ update init [first_apple :: [keyboard] ++ [near_apple]] = Ok one_apple
  ∧ ∃ s, update init [[first_apple; near_apple]] = Ok s
         ∧ tally (counts s) (cls_name first_apple)
           = tally (counts init) (cls_name first_apple) + 1
         ∧ seen_objects s
           = seen_objects init ++ [(cls_name first_apple, (10, 10, 50, 50))].
Proof.
  apply (same_frame_duplicate_merged init first_apple near_apple [keyboard]
           (10, 10, 50, 50) (12, 11, 52, 51) one_apple).
  - vm_compute; reflexivity.
  - vm_compute; reflexivity.
  - apply already_seen_false. vm_compute; reflexivity.
  - vm_compute; reflexivity.
  - vm_compute; reflexivity.
  - vm_compute; reflexivity.
  - vm_compute; reflexivity.
Defined.

(** * Further properties *)

(** ** The proximity test *)

Lemma is_same_object_true_Z (x1 y1 x2 y2 x1b y1b x2b y2b t : Z) :
  is_same_object (x1, y1, x2, y2) (x1b, y1b, x2b, y2b) t = true
  ↔ Z.abs ((x1 + x2) - (x1b + x2b)) < 2 * t
    ∧ Z.abs ((y1 + y2) - (y1b + y2b)) < 2 * t.
Proof. by rewrite is_same_object_Z, andb_true_iff, !Z.ltb_lt. Qed.

(** X1. For boxes in the range where the doubles of the source are exact
    (coordinate sums up to 2^52), the test needs no division: two boxes
    pass it exactly when, on both axes, the sums of the two coordinates
    differ by less than twice the threshold. *)
Theorem is_same_object_integer_test (x1 y1 x2 y2 x1b y1b x2b y2b threshold : Z) :
  exact_range (x1, y1, x2, y2) →
  exact_range (x1b, y1b, x2b, y2b) →
  is_same_object (x1, y1, x2, y2) (x1b, y1b, x2b, y2b) threshold = true
  ↔ Z.abs ((x1 + x2) - (x1b + x2b)) < 2 * threshold
    ∧ Z.abs ((y1 + y2) - (y1b + y2b)) < 2 * threshold.
Proof. intros _ _. apply is_same_object_true_Z. Qed.

(** X2. The test is symmetric in its two boxes, whatever the threshold. *)
Theorem is_same_object_symmetric (box1 box2 : box) (threshold : Z) :
  is_same_object box1 box2 threshold = is_same_object box2 box1 threshold.
Proof.
  destruct box1 as [[[x1 y1] x2] y2], box2 as [[[x1b y1b] x2b] y2b].
  rewrite !is_same_object_Z. f_equal; f_equal; lia.
Qed.

(** X3. Boxes that pass the test at one threshold pass it at every larger
    one. *)
Theorem is_same_object_threshold_monotone (box1 box2 : box) (t t' : Z) :
  t ≤ t' →
  is_same_object box1 box2 t = true →
  is_same_object box1 box2 t' = true.
Proof.
  destruct box1 as [[[x1 y1] x2] y2], box2 as [[[x1b y1b] x2b] y2b].
  rewrite !is_same_object_true_Z. lia.
Qed.

(** X4. Only a positive threshold lets anything pass: with a threshold of
    zero or less no two boxes are the same object, not even a box and
    itself; with a positive one every box is the same object as itself. *)
Theorem is_same_object_positive_threshold (box1 box2 : box) (threshold : Z) :
  (is_same_object box1 box2 threshold = true → 0 < threshold)
  ∧ (is_same_object box1 box1 threshold = true ↔ 0 < threshold).
Proof.
  destruct box1 as [[[x1 y1] x2] y2], box2 as [[[x1b y1b] x2b] y2b].
  rewrite !is_same_object_true_Z. lia.
Qed.

Lemma center_x_eq (x1 y1 x2 y2 x1' y1' x2' y2' : Z) :
  (center_x (x1, y1, x2, y2) == center_x (x1', y1', x2', y2'))%Q
  ↔ x1 + x2 = x1' + x2'.
Proof. unfold center_x, Qeq, Qdiv, Qmult, Qinv, inject_Z. simpl. lia. Qed.

Lemma center_y_eq (x1 y1 x2 y2 x1' y1' x2' y2' : Z) :
  (center_y (x1, y1, x2, y2) == center_y (x1', y1', x2', y2'))%Q
  ↔ y1 + y2 = y1' + y2'.
Proof. unfold center_y, Qeq, Qdiv, Qmult, Qinv, inject_Z. simpl. lia. Qed.

(** X5. The test looks at the centres only: a box can be replaced by any
    box with the same centre, of whatever size, without changing the
    answer. *)
Theorem is_same_object_same_center (box1 box1' box2 : box) (threshold : Z) :
  (center_x box1 == center_x box1')%Q →
  (center_y box1 == center_y box1')%Q →
  is_same_object box1 box2 threshold = is_same_object box1' box2 threshold.
Proof.
  destruct box1 as [[[x1 y1] x2] y2], box1' as [[[x1' y1'] x2'] y2'],
    box2 as [[[x1b y1b] x2b] y2b].
  rewrite center_x_eq, center_y_eq, !is_same_object_Z. by intros -> ->.
Qed.

(** ** Unpacking the coordinates *)

(** X6. The coordinates of a detection unpack into a box exactly when they
    are four finite numbers, and the box holds each of them truncated
    towards zero; anything else (fewer or more items, a NaN, an infinity)
    raises. *)
Theorem unpack4_four_finite (it : list coord) (b : box) :
  unpack4 it = Ok b
  ↔ ∃ q1 q2 q3 q4,
      it = [Finite q1; Finite q2; Finite q3; Finite q4]
      ∧ b = (trunc q1, trunc q2, trunc q3, trunc q4).
Proof.
  split.
  - intros H. destruct (unpack4_Ok it b H) as [Hlen _].
    destruct it as [|c1 [|c2 [|c3 [|c4 [|]]]]]; try done.
    destruct c1 as [q1| |], c2 as [q2| |], c3 as [q3| |], c4 as [q4| |];
      try done.
    exists q1, q2, q3, q4. split; [done |].
    unfold unpack4 in H. simpl in H. by injection H as <-.
  - by intros (q1 & q2 & q3 & q4 & -> & ->).
Qed.

(** ** What the stored objects account for *)

Lemma covered_process_box (s : state) (d : Detection) :
  covered s d = true → process_box s d = Ok s.
Proof.
  unfold covered, process_box.
  destruct (contains PRICE_LIST (cls_name d)); [| done].
  destruct (unpack4 (xyxy d)) as [b|e]; simpl; [| done]. by intros ->.
Qed.

Lemma process_box_covered (s s' : state) (d : Detection) :
  process_box s d = Ok s' → covered s' d = true.
Proof.
  unfold covered, process_box.
  destruct (contains PRICE_LIST (cls_name d)); [| done].
  destruct (unpack4 (xyxy d)) as [b|e]; simpl; [| done].
  destruct (already_seen (seen_objects s) (cls_name d) b) eqn:E; simpl;
    intros [= <-]; [done |].
  simpl. rewrite already_seen_app. apply orb_true_iff. right. simpl.
  rewrite String.eqb_refl. by rewrite is_same_object_refl.
Qed.

Lemma covered_grows (s s' : state) (d : Detection) :
  grows s s' → covered s d = true → covered s' d = true.
Proof.
  intros [[added Hadd] _]. unfold covered.
  destruct (contains PRICE_LIST (cls_name d)); [| done].
  destruct (unpack4 (xyxy d)) as [b|e]; [| done].
  rewrite Hadd, already_seen_app. by intros ->.
Qed.

Lemma process_boxes_grows (s s' : state) (boxes : list Detection) :
  process_boxes s boxes = Ok s' → grows s s'.
Proof. apply (process_boxes_lift grows grows_refl grows_trans process_box_grows). Qed.

Lemma process_boxes_covered (s s' : state) (boxes : list Detection) :
  process_boxes s boxes = Ok s' → Forall (λ d, covered s' d = true) boxes.
Proof.
  revert s. induction boxes as [|d rest IH]; intros s; simpl; [by constructor |].
  intros H. apply bind_Ok in H as (s1 & H1 & H). constructor; [| by eapply IH].
  apply (covered_grows s1); [by eapply process_boxes_grows |].
  by eapply process_box_covered.
Qed.

Lemma covered_process_boxes (s : state) (boxes : list Detection) :
  Forall (λ d, covered s d = true) boxes → process_boxes s boxes = Ok s.
Proof.
  induction 1 as [|d rest Hd _ IH]; simpl; [done |].
  by rewrite (covered_process_box s d Hd).
Qed.

(** X7. Showing the same frames again changes nothing: the state reached
    by a sequence of frames is left as it is by the same sequence of
    frames, every detection of it being near a stored object by then. *)
Theorem replayed_frames_change_nothing
    (st st' : state) (frames : list (list (list Detection))) :
  run_frames st frames = Ok st' → run_frames st' frames = Ok st'.
Proof.
  rewrite !run_frames_concat. intros H.
  by apply covered_process_boxes, (process_boxes_covered st).
Qed.

(** X8. No detection is lost: after a sequence of frames, every priced
    detection of it has a box and a stored object of its label that passes
    the proximity test against that box. *)
Theorem every_detection_accounted_for
    (st st' : state) (frames : list (list (list Detection))) (d : Detection) :
  run_frames st frames = Ok st' →
  d ∈ concat (concat frames) →
  contains PRICE_LIST (cls_name d) = true →
  ∃ b prev_box,
    unpack4 (xyxy d) = Ok b
    ∧ (cls_name d, prev_box) ∈ seen_objects st'
    ∧ is_same_object prev_box b default_threshold = true.
Proof.
  rewrite run_frames_concat. intros H Hd Hp.
  apply process_boxes_covered in H. rewrite Forall_forall in H.
  specialize (H d Hd). unfold covered in H. rewrite Hp in H.
  destruct (unpack4 (xyxy d)) as [b|e]; [| done].
  apply already_seen_true in H as (prev & Hin & Hnear). by exists b, prev.
Qed.

Lemma separated_snoc (seen : list (string * box)) (cls : string) (b : box) :
  separated seen →
  already_seen seen cls b = false →
  separated (seen ++ [(cls, b)]).
Proof.
  intros Hsep Hfar0 i j l bi bj Hij Hi Hj.
  pose proof (proj1 (already_seen_false _ _ _) Hfar0) as Hfar.
  destruct (decide (j < length seen)%nat) as [Hlt|Hge].
  - rewrite lookup_app_l in Hi, Hj by lia. exact (Hsep i j l bi bj Hij Hi Hj).
  - pose proof (lookup_lt_Some _ _ _ Hj) as Hj'.
    rewrite length_app in Hj'. simpl in Hj'.
    rewrite lookup_app_r in Hj by lia.
    replace (j - length seen)%nat with 0%nat in Hj by lia.
    injection Hj as <- <-.
    rewrite lookup_app_l in Hi by lia.
    apply Hfar. by eapply list_elem_of_lookup_2.
Qed.

Lemma process_box_separated (s : state) (d : Detection) (s' : state) :
  process_box s d = Ok s' → separated (seen_objects s) → separated (seen_objects s').
Proof.
  intros [->|(b & _ & _ & Hfar & ->)]%process_box_Ok Hsep; [done |].
  by apply separated_snoc.
Qed.

(** X9. The stored objects of one label keep their distance: in a session
    that started empty, any two stored objects of the same label fail the
    proximity test against each other, in either order. *)
Theorem stored_objects_stay_apart
    (frames : list (list (list Detection))) (st : state)
    (i j : nat) (label : string) (bi bj : box) :
  run_frames init frames = Ok st →
  i ≠ j →
  seen_objects st !! i = Some (label, bi) →
  seen_objects st !! j = Some (label, bj) →
  is_same_object bi bj default_threshold = false.
Proof.
  intros H Hij Hi Hj.
  assert (separated (seen_objects st)) as Hsep.
  { refine (run_frames_lift
              (λ s s', separated (seen_objects s) → separated (seen_objects s'))
              _ _ process_box_separated _ _ _ H _); auto.
    intros ? ? ? ? ? _ Hnil.
    change (seen_objects init) with (@nil (string * box)) in Hnil.
    by rewrite lookup_nil in Hnil. }
  destruct (decide (i < j)%nat) as [Hlt|Hge].
  - exact (Hsep i j label bi bj Hlt Hi Hj).
  - rewrite is_same_object_sym. apply (Hsep j i label bj bi); [lia | done..].
Qed.

(** ** One label at a time *)

Lemma already_seen_seen_of (seen : list (string * box)) (cls : string) (b : box) :
  already_seen (seen_of cls seen) cls b = already_seen seen cls b.
Proof.
  unfold seen_of. induction seen as [|[c pb] rest IH]; [done |].
  destruct (decide (c = cls)) as [->|Hne].
  - rewrite filter_cons_True by done. simpl. by rewrite IH.
  - rewrite filter_cons_False by done. simpl.
    by destruct (String.eqb_spec c cls).
Qed.

Lemma seen_of_snoc_eq (seen : list (string * box)) (cls : string) (b : box) :
  seen_of cls (seen ++ [(cls, b)]) = seen_of cls seen ++ [(cls, b)].
Proof. unfold seen_of. by rewrite filter_app, filter_cons_True. Qed.

Lemma seen_of_snoc_ne (seen : list (string * box)) (cls l : string) (b : box) :
  cls ≠ l → seen_of l (seen ++ [(cls, b)]) = seen_of l seen.
Proof.
  intros Hne. unfold seen_of.
  by rewrite filter_app, filter_cons_False, filter_nil, app_nil_r.
Qed.

(** Two states that agree on a label still agree on it after a detection of
    that label is processed in both. *)
Lemma process_box_same_label (s t s' : state) (d : Detection) :
  tally (counts s) (cls_name d) = tally (counts t) (cls_name d) →
  seen_of (cls_name d) (seen_objects s) = seen_of (cls_name d) (seen_objects t) →
  process_box s d = Ok s' →
  ∃ t', process_box t d = Ok t'
        ∧ tally (counts s') (cls_name d) = tally (counts t') (cls_name d)
        ∧ seen_of (cls_name d) (seen_objects s')
          = seen_of (cls_name d) (seen_objects t').
Proof.
  intros Htally Hseen. unfold process_box.
  destruct (contains PRICE_LIST (cls_name d)); [| intros [= <-]; by exists t].
  destruct (unpack4 (xyxy d)) as [b|e]; simpl; [| done].
  rewrite <- (already_seen_seen_of (seen_objects s)), Hseen, already_seen_seen_of.
  destruct (already_seen (seen_objects t) (cls_name d) b); simpl;
    intros [= <-]; [by exists t |].
  eexists. split; [done |]. simpl.
  by rewrite !tally_incr_eq, !seen_of_snoc_eq, Htally, Hseen.
Qed.

(** A detection of another label leaves the label alone. *)
Lemma process_box_other_label (s s' : state) (d : Detection) (l : string) :
  cls_name d ≠ l →
  process_box s d = Ok s' →
  tally (counts s') l = tally (counts s) l
  ∧ seen_of l (seen_objects s') = seen_of l (seen_objects s).
Proof.
  intros Hne [->|(b & _ & _ & _ & ->)]%process_box_Ok; [done |]. simpl.
  by rewrite tally_incr_ne, seen_of_snoc_ne.
Qed.

Lemma process_boxes_only (l : string) (boxes : list Detection) (s t s' : state) :
  tally (counts s) l = tally (counts t) l →
  seen_of l (seen_objects s) = seen_of l (seen_objects t) →
  process_boxes s boxes = Ok s' →
  ∃ t', process_boxes t (only l boxes) = Ok t'
        ∧ tally (counts s') l = tally (counts t') l
        ∧ seen_of l (seen_objects s') = seen_of l (seen_objects t').
Proof.
  revert s t. induction boxes as [|d rest IH]; intros s t Htally Hseen; simpl.
  - intros [= <-]. by exists t.
  - intros H. apply bind_Ok in H as (s1 & H1 & H). unfold only.
    destruct (decide (cls_name d = l)) as [<-|Hne].
    + rewrite filter_cons_True by done.
      destruct (process_box_same_label s t s1 d Htally Hseen H1)
        as (t1 & Ht1 & Htally1 & Hseen1).
      simpl. rewrite Ht1. simpl. by apply (IH s1).
    + rewrite filter_cons_False by done.
      destruct (process_box_other_label s s1 d l Hne H1) as [Htally1 Hseen1].
      apply (IH s1); [by rewrite Htally1 | by rewrite Hseen1 | done].
Qed.

Lemma concat_only (l : string) (results : list (list Detection)) :
  concat (only l <$> results) = only l (concat results).
Proof.
  unfold only. induction results as [|r rest IH]; [done |].
  csimpl. by rewrite filter_app, IH.
Qed.

(** X10. Labels do not interfere: what a frame does to one label (its
    count and its stored objects) is what the frame does when the
    detections of all other labels are taken out of it. *)
Theorem labels_do_not_interfere
    (label : string) (st st' : state) (results : list (list Detection)) :
  update st results = Ok st' →
  ∃ st_l,
    update st (only label <$> results) = Ok st_l
    ∧ tally (counts st_l) label = tally (counts st') label
    ∧ seen_of label (seen_objects st_l) = seen_of label (seen_objects st').
Proof.
  rewrite !update_concat, concat_only. intros H.
  destruct (process_boxes_only label _ st st st' eq_refl eq_refl H)
    as (t' & Ht' & Htally & Hseen).
  by exists t'.
Qed.

(** ** Counts and detections *)

Lemma process_box_tally_bound (s s' : state) (d : Detection) (l : string) :
  process_box s d = Ok s' →
  tally (counts s') l
  ≤ tally (counts s) l + Z.of_nat (length (only l [d])).
Proof.
  intros [->|(b & _ & _ & _ & ->)]%process_box_Ok; [lia |]. simpl.
  unfold only. destruct (decide (cls_name d = l)) as [<-|Hne].
  - rewrite filter_cons_True, tally_incr_eq by done. simpl. lia.
  - rewrite filter_cons_False, tally_incr_ne by done. simpl. lia.
Qed.

Lemma process_boxes_tally_bound (s s' : state) (boxes : list Detection) (l : string) :
  process_boxes s boxes = Ok s' →
  tally (counts s') l ≤ tally (counts s) l + Z.of_nat (length (only l boxes)).
Proof.
  revert s. induction boxes as [|d rest IH]; intros s; simpl.
  - intros [= <-]. lia.
  - intros H. apply bind_Ok in H as (s1 & H1 & H).
    apply (process_box_tally_bound _ _ _ l) in H1. apply IH in H.
    change (d :: rest) with ([d] ++ rest). unfold only in *.
    rewrite filter_app, length_app. lia.
Qed.

(** X11. A count never runs ahead of the detections: over any sequence of
    frames the count of a label rises by at most the number of detections
    of that label in the frames. *)
Theorem tally_bounded_by_detections
    (st st' : state) (frames : list (list (list Detection))) (label : string) :
  run_frames st frames = Ok st' →
  tally (counts st') label
  ≤ tally (counts st) label
    + Z.of_nat (length (only label (concat (concat frames)))).
Proof. rewrite run_frames_concat. apply process_boxes_tally_bound. Qed.

(** ** The shape of the tally *)

Lemma dict_set_fst (k : string) (v : Z) (d : list (string * Z)) :
  (dict_set k v d).*1 = if bool_decide (k ∈ d.*1) then d.*1 else d.*1 ++ [k].
Proof.
  induction d as [|[k' v'] rest IH]; [done |]. simpl.
  destruct (String.eqb_spec k' k) as [->|Hne]; csimpl.
  - rewrite bool_decide_eq_true_2; [done | left].
  - rewrite IH. destruct (decide (k ∈ rest.*1)) as [Hin|Hout].
    + rewrite !bool_decide_eq_true_2; [done | by right | done].
    + rewrite !bool_decide_eq_false_2; [done | | done].
      rewrite elem_of_cons. intros [?|?]; [by subst | done].
Qed.

Lemma dict_set_elem (k : string) (v : Z) (d : list (string * Z)) (e : string * Z) :
  e ∈ dict_set k v d → e = (k, v) ∨ e ∈ d.
Proof.
  induction d as [|[k' v'] rest IH]; simpl.
  - rewrite list_elem_of_singleton. by left.
  - destruct (String.eqb_spec k' k) as [->|Hne]; rewrite !elem_of_cons.
    + intros [->|?]; [by left | right; by right].
    + intros [->|?]; [right; by left |].
      destruct IH as [->|?]; [done | by left | right; by right].
Qed.

Lemma dict_get_elem (k : string) (v : Z) (d : list (string * Z)) :
  dict_get k d = Some v → (k, v) ∈ d.
Proof.
  induction d as [|[k' v'] rest IH]; simpl; [done |].
  destruct (String.eqb_spec k' k) as [->|Hne].
  - intros [= ->]. left.
  - intros H. right. by apply IH.
Qed.

Lemma dict_get_None (k : string) (d : list (string * Z)) :
  dict_get k d = None ↔ k ∉ d.*1.
Proof.
  induction d as [|[k' v'] rest IH]; csimpl.
  - split; [intros _; apply not_elem_of_nil | done].
  - rewrite not_elem_of_cons. destruct (String.eqb_spec k' k) as [->|Hne].
    + split; [done | by intros [? _]].
    + rewrite IH. split; [by intros ? | by intros [_ ?]].
Qed.

Lemma NoDup_fst_functional (d : list (string * Z)) (k : string) (v v' : Z) :
  NoDup d.*1 → (k, v) ∈ d → (k, v') ∈ d → v = v'.
Proof.
  induction d as [|[k0 v0] rest IH]; csimpl; [by intros _ ?%elem_of_nil |].
  rewrite NoDup_cons, !elem_of_cons. intros [Hout Hnodup] [Hv|Hv] [Hv'|Hv'].
  - congruence.
  - injection Hv as <- <-. destruct Hout. apply list_elem_of_fmap. by exists (k, v').
  - injection Hv' as <- <-. destruct Hout. apply list_elem_of_fmap. by exists (k, v).
  - by apply IH.
Qed.

Lemma well_kept_tally (d : list (string * Z)) (k : string) :
  well_kept d → 0 ≤ tally d k.
Proof.
  intros [_ Hpos]. unfold tally. destruct (dict_get k d) as [v|] eqn:E; simpl; [| done].
  apply dict_get_elem, Hpos in E. lia.
Qed.

Lemma well_kept_incr (d : list (string * Z)) (k : string) :
  well_kept d → well_kept (incr k d).
Proof.
  intros Hd. pose proof (well_kept_tally d k Hd) as Hk.
  destruct Hd as [Hnodup Hpos]. unfold incr. split.
  - rewrite dict_set_fst. case_bool_decide as Hin; [done |].
    apply NoDup_app. split; [done |]. split; [| apply NoDup_singleton].
    intros x Hx ->%list_elem_of_singleton. done.
  - intros k0 v0 [[= -> ->]|Hin]%dict_set_elem; [lia | by eapply Hpos].
Qed.

Lemma process_box_well_kept (s : state) (d : Detection) (s' : state) :
  process_box s d = Ok s' → well_kept (counts s) → well_kept (counts s').
Proof.
  intros [->|(b & _ & _ & _ & ->)]%process_box_Ok Hs; [done |].
  by apply well_kept_incr.
Qed.

Lemma well_kept_init : well_kept (counts init).
Proof. split; [apply NoDup_nil_2 | by intros k v ?%elem_of_nil]. Qed.

Lemma run_frames_well_kept (frames : list (list (list Detection))) (st : state) :
  run_frames init frames = Ok st → well_kept (counts st).
Proof.
  intros H.
  refine (run_frames_lift (λ s s', well_kept (counts s) → well_kept (counts s'))
            _ _ process_box_well_kept _ _ _ H well_kept_init); auto.
Qed.

(** X12. In a session that started empty the tally has one entry per
    label, every entry counts at least one object, and every label of it
    is priced: the bill has no line twice, no line of count zero and no
    line without a price. *)
Theorem tally_entries_distinct_positive_priced
    (frames : list (list (list Detection))) (st : state) :
  run_frames init frames = Ok st →
  NoDup (counts st).*1
  ∧ (∀ k v, (k, v) ∈ counts st → 1 ≤ v ∧ tally (counts st) k = v)
  ∧ (∀ k, k ∈ (counts st).*1 → contains PRICE_LIST k = true).
Proof.
  intros H. pose proof (run_frames_well_kept frames st H) as [Hnodup Hpos].
  split; [done |]. split; [| by apply (run_frames_priced_keys frames)].
  intros k v Hin. split; [by eapply Hpos |].
  unfold tally. destruct (dict_get k (counts st)) as [v'|] eqn:E; simpl.
  - apply dict_get_elem in E. by apply (NoDup_fst_functional (counts st) k).
  - apply dict_get_None in E. destruct E.
    apply list_elem_of_fmap. by exists (k, v).
Qed.

(** ** Where the stored objects and the labels of the tally come from *)

Lemma process_box_origin (s s' : state) (d : Detection) (o : string * box) :
  process_box s d = Ok s' →
  o ∈ seen_objects s' →
  o ∈ seen_objects s
  ∨ (cls_name d = o.1 ∧ contains PRICE_LIST o.1 = true
     ∧ unpack4 (xyxy d) = Ok o.2).
Proof.
  intros [->|(b & Hp & Hb & _ & ->)]%process_box_Ok; [by left |]. simpl.
  rewrite elem_of_app, list_elem_of_singleton. intros [?| ->]; [by left | by right].
Qed.

Lemma process_boxes_origin (s s' : state) (boxes : list Detection) (o : string * box) :
  process_boxes s boxes = Ok s' →
  o ∈ seen_objects s' →
  o ∈ seen_objects s
  ∨ ∃ d, d ∈ boxes ∧ cls_name d = o.1 ∧ contains PRICE_LIST o.1 = true
         ∧ unpack4 (xyxy d) = Ok o.2.
Proof.
  revert s. induction boxes as [|d rest IH]; intros s; simpl.
  - intros [= <-]. by left.
  - intros H Ho. apply bind_Ok in H as (s1 & H1 & H).
    destruct (IH s1 H Ho) as [Hin|(d' & Hd' & Hrest)].
    + destruct (process_box_origin s s1 d o H1 Hin) as [?|?]; [by left |].
      right. exists d. split; [left | done].
    + right. exists d'. split; [by right | done].
Qed.

(** X13. Nothing is stored that was not shown: in a session that started
    empty, every stored object is the label and the box of a priced
    detection of the frames. *)
Theorem stored_objects_were_detected
    (frames : list (list (list Detection))) (st : state)
    (label : string) (b : box) :
  run_frames init frames = Ok st →
  (label, b) ∈ seen_objects st →
  ∃ d, d ∈ concat (concat frames)
       ∧ cls_name d = label
       ∧ contains PRICE_LIST label = true
       ∧ unpack4 (xyxy d) = Ok b.
Proof.
  rewrite run_frames_concat. intros H Ho.
  destruct (process_boxes_origin _ _ _ _ H Ho) as [Hin|Hd]; [| done].
  by apply elem_of_nil in Hin.
Qed.

(** The keys of the tally are the labels of the stored objects. *)
Lemma process_box_keys_labels (s : state) (d : Detection) (s' : state) :
  process_box s d = Ok s' →
  (∀ k, k ∈ (counts s).*1 ↔ k ∈ (seen_objects s).*1) →
  (∀ k, k ∈ (counts s').*1 ↔ k ∈ (seen_objects s').*1).
Proof.
  intros [->|(b & _ & _ & _ & ->)]%process_box_Ok Hs; [done |].
  intros k. simpl. unfold incr.
  rewrite dict_set_keys, fmap_app, elem_of_app, Hs. simpl.
  rewrite list_elem_of_singleton. tauto.
Qed.

Lemma run_frames_keys_labels (frames : list (list (list Detection))) (st : state) :
  run_frames init frames = Ok st →
  ∀ k, k ∈ (counts st).*1 ↔ k ∈ (seen_objects st).*1.
Proof.
  intros H.
  refine (run_frames_lift
            (λ s s', (∀ k, k ∈ (counts s).*1 ↔ k ∈ (seen_objects s).*1) →
                     (∀ k, k ∈ (counts s').*1 ↔ k ∈ (seen_objects s').*1))
            _ _ process_box_keys_labels _ _ _ H _); auto.
Qed.

(** X14. The labels of the tally are exactly the priced labels that were
    detected: in a session that started empty, a label has an entry, and so
    a line on the bill, if and only if it has a price and some detection of
    the frames carries it. *)
Theorem tally_labels_are_detected_priced_labels
    (frames : list (list (list Detection))) (st : state) (label : string) :
  run_frames init frames = Ok st →
  label ∈ (counts st).*1
  ↔ contains PRICE_LIST label = true
    ∧ ∃ d, d ∈ concat (concat frames) ∧ cls_name d = label.
Proof.
  intros H. rewrite (run_frames_keys_labels frames st H). split.
  - intros ([l b] & -> & Ho)%list_elem_of_fmap. simpl.
    rewrite run_frames_concat in H.
    destruct (process_boxes_origin _ _ _ _ H Ho)
      as [Hin|(d & Hd & Hl & Hp & _)]; [by apply elem_of_nil in Hin |].
    split; [done | by exists d].
  - intros (Hp & d & Hd & <-).
    rewrite run_frames_concat in H. apply process_boxes_covered in H.
    rewrite Forall_forall in H. specialize (H d Hd).
    unfold covered in H. rewrite Hp in H.
    destruct (unpack4 (xyxy d)) as [b|e]; [| done].
    apply already_seen_true in H as (prev & Hin & _).
    apply list_elem_of_fmap. by exists (cls_name d, prev).
Qed.

(** ** The order of the tally *)

Lemma elem_of_first_occurrences (labels : list string) (k : string) :
  k ∈ first_occurrences labels ↔ k ∈ labels.
Proof.
  induction labels as [|x rest IH]; simpl; [done |].
  rewrite !elem_of_cons, list_elem_of_filter, IH.
  destruct (decide (k = x)); tauto.
Qed.

Lemma first_occurrences_snoc (labels : list string) (k : string) :
  first_occurrences (labels ++ [k])
  = if bool_decide (k ∈ labels) then first_occurrences labels
    else first_occurrences labels ++ [k].
Proof.
  induction labels as [|x rest IH]; simpl; [done |].
  rewrite IH. destruct (decide (k = x)) as [->|Hne].
  - rewrite (bool_decide_eq_true_2 (x ∈ x :: rest)) by left.
    case_bool_decide; [done |].
    by rewrite filter_app, filter_cons_False, filter_nil, app_nil_r by auto.
  - destruct (decide (k ∈ rest)) as [Hin|Hout].
    + rewrite !bool_decide_eq_true_2; [done | by right | done].
    + rewrite !bool_decide_eq_false_2; [| | done].
      * by rewrite filter_app, filter_cons_True.
      * rewrite elem_of_cons. tauto.
Qed.

Lemma process_box_order (s : state) (d : Detection) (s' : state) :
  process_box s d = Ok s' →
  (counts s).*1 = first_occurrences (seen_objects s).*1 →
  (counts s').*1 = first_occurrences (seen_objects s').*1.
Proof.
  intros [->|(b & _ & _ & _ & ->)]%process_box_Ok Hs; [done |]. simpl.
  unfold incr. rewrite dict_set_fst, fmap_app. csimpl.
  rewrite first_occurrences_snoc, Hs.
  rewrite (bool_decide_ext _ _ (elem_of_first_occurrences _ _)). done.
Qed.

(** X15. The tally, and with it the bill, lists the labels in the order in
    which they were first confirmed: in a session that started empty its
    keys are the labels of the stored objects in the order of their first
    occurrence. *)
Theorem tally_in_first_confirmed_order
    (frames : list (list (list Detection))) (st : state) :
  run_frames init frames = Ok st →
  (counts st).*1 = first_occurrences (seen_objects st).*1.
Proof.
  intros H.
  refine (run_frames_lift
            (λ s s', (counts s).*1 = first_occurrences (seen_objects s).*1 →
                     (counts s').*1 = first_occurrences (seen_objects s').*1)
            _ _ process_box_order _ _ _ H eq_refl); auto.
Qed.

(** ** The bill *)

Lemma bill_loop_KeyError (prices : gmap string Z) (items : list (string * Z))
    (printed : list line) (subtotal : Z) (k : string) :
  k ∈ items.*1 → prices !! k = None →
  bill_loop prices items printed subtotal = Raise KeyError.
Proof.
  revert printed subtotal.
  induction items as [|[k' c] rest IH]; intros printed subtotal; csimpl.
  - by intros ?%elem_of_nil.
  - intros Hin Hk. destruct (prices !! k') as [p|] eqn:E; [| done].
    apply elem_of_cons in Hin as [->|Hin]; [congruence | by apply IH].
Qed.

Lemma receipt_ok_iff (prices : gmap string Z) (counts : list (string * Z)) :
  is_ok (receipt prices counts) = true
  ↔ ∀ k, k ∈ counts.*1 → is_Some (prices !! k).
Proof.
  split.
  - intros H k Hk. destruct (prices !! k) eqn:E; [done |].
    unfold receipt in H. by rewrite (bill_loop_KeyError _ _ _ _ k Hk E) in H.
  - intros H. unfold receipt.
    by destruct (bill_loop_spec prices counts [] 0 H) as (lines & -> & _).
Qed.

Lemma bill_lines (prices : gmap string Z) (counts : list (string * Z)) (lines : list line) :
  (λ ln, (item ln, count ln)) <$> lines = counts →
  Forall (λ ln, prices !! item ln = Some (price ln)
                ∧ line_total ln = price ln * count ln) lines →
  lines = line_of prices <$> counts.
Proof.
  intros <- H. induction H as [|[i c p t] rest [Hp Ht] _ IH]; [done |].
  csimpl in *. rewrite <- IH. unfold line_of. simpl. rewrite Hp. simpl.
  by rewrite Ht.
Qed.

Lemma receipt_line_of (prices : gmap string Z) (counts : list (string * Z))
    (lines : list line) (total : Z) :
  receipt prices counts = Ok (lines, total) →
  lines = line_of prices <$> counts ∧ total = sum_totals lines.
Proof.
  intros H.
  assert (is_ok (receipt prices counts) = true) as Hok by by rewrite H.
  pose proof (proj1 (receipt_ok_iff _ _) Hok) as Hkeys.
  destruct (bill_loop_spec prices counts [] 0 Hkeys) as (lines' & Hrun & Hitems & Hall).
  unfold receipt in H. rewrite Hrun in H. injection H as <- <-.
  split; [by apply bill_lines | done].
Qed.

Lemma print_lines_priced (prices : gmap string Z) (items : list (string * Z))
    (subtotal : Z) :
  (∀ k, k ∈ items.*1 → is_Some (prices !! k)) →
  print_lines prices items subtotal
  = (Item <$> (line_of prices <$> items),
     Ok (subtotal + sum_totals (line_of prices <$> items))).
Proof.
  revert subtotal. induction items as [|[k c] rest IH]; intros subtotal Hkeys.
  - simpl. by rewrite Z.add_0_r.
  - destruct (Hkeys k) as [p Hp]; [left |].
    csimpl. rewrite Hp, IH by (intros k' Hk'; apply Hkeys; by right).
    change (sum_totals (?ln :: ?l)) with (line_total ln + sum_totals l).
    unfold line_of at 1 3. simpl. rewrite Hp. simpl.
    by rewrite Z.add_assoc.
Qed.

Lemma print_lines_missing (prices : gmap string Z)
    (before : list (string * Z)) (k : string) (c : Z) (after : list (string * Z))
    (subtotal : Z) :
  (∀ k', k' ∈ before.*1 → is_Some (prices !! k')) →
  prices !! k = None →
  print_lines prices (before ++ (k, c) :: after) subtotal
  = (Item <$> (line_of prices <$> before), Raise KeyError).
Proof.
  revert subtotal. induction before as [|[k0 c0] rest IH]; intros subtotal Hkeys Hk.
  - simpl. by rewrite Hk.
  - destruct (Hkeys k0) as [p Hp]; [left |].
    csimpl. rewrite Hp, IH; [| intros k' Hk'; apply Hkeys; by right | done].
    unfold line_of at 2. simpl. by rewrite Hp.
Qed.

(** X16. What the bill prints when a price is missing. If every label of
    the tally has a price, the header, one line per entry, the total and
    the closing rule are printed, and the total is the sum of the line
    totals. If some label has none, the header and the lines of the
    entries before the first such label have been printed when the lookup
    raises KeyError, and neither a later line nor a total is printed. *)
Theorem receipt_prints_until_missing_price
    (prices : gmap string Z) (counts : list (string * Z)) :
  ((∀ k, k ∈ counts.*1 → is_Some (prices !! k)) →
   print_receipt prices counts
   = (Header :: (Item <$> (line_of prices <$> counts))
        ++ [Total (sum_totals (line_of prices <$> counts)); Footer],
      Ok ())
   ∧ receipt prices counts
     = Ok (line_of prices <$> counts, sum_totals (line_of prices <$> counts)))
  ∧ (∀ before k c after,
       counts = before ++ (k, c) :: after →
       (∀ k', k' ∈ before.*1 → is_Some (prices !! k')) →
       prices !! k = None →
       print_receipt prices counts
       = (Header :: (Item <$> (line_of prices <$> before)), Raise KeyError)
       ∧ receipt prices counts = Raise KeyError).
Proof.
  split.
  - intros Hkeys. unfold print_receipt.
    rewrite (print_lines_priced _ _ _ Hkeys). split; [done |].
    destruct (bill_loop_spec prices counts [] 0 Hkeys) as (lines & Hrun & Hitems & Hall).
    unfold receipt. rewrite Hrun. simpl.
    by rewrite (bill_lines _ _ _ Hitems Hall).
  - intros before k c after -> Hkeys Hk. unfold print_receipt.
    rewrite (print_lines_missing _ _ _ _ _ _ Hkeys Hk). split; [done |].
    apply (bill_loop_KeyError _ _ _ _ k); [| done].
    rewrite fmap_app, elem_of_app. right. left.
Qed.

Lemma sum_totals_perm (lines1 lines2 : list line) :
  lines1 ≡ₚ lines2 → sum_totals lines1 = sum_totals lines2.
Proof.
  unfold sum_totals. induction 1 as [|x l l' _ IH|x y l|l l' l'' _ IH1 _ IH2];
    csimpl; [done | by rewrite IH | lia | by rewrite IH1].
Qed.

(** X17. The total does not depend on the order of the tally: a tally with
    the same entries in another order gives a bill with the same lines, in
    that order, and the same total. *)
Theorem receipt_total_order_independent
    (prices : gmap string Z) (counts1 counts2 : list (string * Z))
    (lines1 : list line) (total : Z) :
  counts1 ≡ₚ counts2 →
  receipt prices counts1 = Ok (lines1, total) →
  ∃ lines2,
    receipt prices counts2 = Ok (lines2, total)
    ∧ lines1 ≡ₚ lines2
    ∧ (λ ln, (item ln, count ln)) <$> lines2 = counts2.
Proof.
  intros Hperm H1.
  assert (is_ok (receipt prices counts1) = true) as Hok by by rewrite H1.
  pose proof (proj1 (receipt_ok_iff _ _) Hok) as Hkeys1.
  apply receipt_line_of in H1 as [-> ->].
  destruct (bill_loop_spec prices counts2 [] 0) as (lines2 & Hrun & Hitems & Hall).
  { intros k Hk. apply Hkeys1. by rewrite Hperm. }
  pose proof (bill_lines prices counts2 lines2 Hitems Hall) as Hlines2.
  assert (line_of prices <$> counts1 ≡ₚ lines2) as Hp.
  { rewrite Hlines2. by apply fmap_Permutation. }
  exists lines2. unfold receipt. rewrite Hrun. simpl.
  by rewrite (sum_totals_perm _ _ Hp).
Qed.

Lemma sum_totals_dict_set (prices : gmap string Z) (k : string) (v : Z)
    (d : list (string * Z)) :
  sum_totals (line_of prices <$> dict_set k v d)
  = sum_totals (line_of prices <$> d)
    + default 0 (prices !! k) * (v - tally d k).
Proof.
  unfold sum_totals, tally. induction d as [|[k' v'] rest IH]; csimpl; [lia |].
  destruct (String.eqb_spec k' k) as [->|Hne]; csimpl; [lia |].
  rewrite IH. lia.
Qed.

Lemma seen_value_snoc (seen : list (string * box)) (o : string * box) :
  seen_value (seen ++ [o]) = seen_value seen + price_of o.1.
Proof.
  unfold seen_value. induction seen as [|o' rest IH]; simpl; [lia |].
  rewrite IH. lia.
Qed.

Lemma process_box_value (s : state) (d : Detection) (s' : state) :
  process_box s d = Ok s' →
  sum_totals (line_of PRICE_LIST <$> counts s) = seen_value (seen_objects s) →
  sum_totals (line_of PRICE_LIST <$> counts s') = seen_value (seen_objects s').
Proof.
  intros [->|(b & _ & _ & _ & ->)]%process_box_Ok Hs; [done |]. simpl.
  unfold incr. rewrite sum_totals_dict_set, seen_value_snoc, Hs.
  unfold price_of. simpl. lia.
Qed.

Lemma run_frames_value (frames : list (list (list Detection))) (st : state) :
  run_frames init frames = Ok st →
  sum_totals (line_of PRICE_LIST <$> counts st) = seen_value (seen_objects st).
Proof.
  intros H.
  refine (run_frames_lift
            (λ s s',
               sum_totals (line_of PRICE_LIST <$> counts s) = seen_value (seen_objects s) →
               sum_totals (line_of PRICE_LIST <$> counts s') = seen_value (seen_objects s'))
            _ _ process_box_value _ _ _ H eq_refl); auto.
Qed.

(** ** The camera loop *)

Lemma quit_pressed_mod (k : Z) : quit_pressed k = true ↔ k `mod` 256 = 113.
Proof.
  unfold quit_pressed. rewrite Z.eqb_eq.
  change 255 with (Z.ones 8). by rewrite Z.land_ones.
Qed.

Lemma run_loop_goes_on (st : state) (pre rest : list turn) :
  Forall goes_on pre →
  run_loop st (pre ++ rest)
  = run_frames st (found <$> pre) ≫= λ st', run_loop st' rest.
Proof.
  intros H. revert st. induction H as [|t pre [Hret Hkey] _ IH]; intros st; [done |].
  csimpl. rewrite Hret. simpl.
  destruct (update st (found t)) as [s1|e]; simpl; [| done].
  destruct (quit_pressed (pressed t)) eqn:E; [| apply IH].
  by apply quit_pressed_mod in E.
Qed.

(** The loop processes the frames of some first turns of the feed and no
    others. *)
Lemma run_loop_prefix (st : state) (feed : list turn) :
  ∃ n, run_loop st feed = run_frames st (found <$> take n feed).
Proof.
  revert st. induction feed as [|t rest IH]; intros st; [by exists 0%nat |].
  simpl. destruct (ret t); simpl; [| by exists 0%nat].
  destruct (update st (found t)) as [s1|e] eqn:E; simpl.
  - destruct (quit_pressed (pressed t)).
    + exists 1%nat. simpl. by rewrite E.
    + destruct (IH s1) as [n Hn]. exists (S n). csimpl. by rewrite E.
  - exists 1%nat. simpl. by rewrite E.
Qed.

(** X18. How the loop ends. After turns in which a frame was read and the
    key, masked to its low byte, was not q: a turn without a frame ends
    the loop before that turn is processed; a turn whose key is q ends it
    after its frame is processed and counted; nothing that comes after
    either turn is looked at. *)
Theorem loop_ends_on_no_frame_or_q
    (st : state) (pre : list turn) (stop : turn) (post : list turn) :
  Forall goes_on pre →
  (ret stop = false →
   run_loop st (pre ++ stop :: post) = run_frames st (found <$> pre))
  ∧ (ret stop = true → pressed stop `mod` 256 = 113 →
     run_loop st (pre ++ stop :: post)
     = run_frames st (found <$> (pre ++ [stop])))
  ∧ run_loop st pre = run_frames st (found <$> pre).
Proof.
  intros Hpre. split; [| split].
  - intros Hret. rewrite (run_loop_goes_on _ _ _ Hpre). simpl. rewrite Hret. simpl.
    by destruct (run_frames st (found <$> pre)).
  - intros Hret Hq%quit_pressed_mod.
    rewrite (run_loop_goes_on _ _ _ Hpre), fmap_app, run_frames_app. simpl.
    rewrite Hret, Hq. simpl.
    destruct (run_frames st (found <$> pre)) as [s1|e]; simpl; [| done].
    by destruct (update s1 (found stop)).
  - rewrite <- (app_nil_r pre) at 1. rewrite (run_loop_goes_on _ _ _ Hpre). simpl.
    by destruct (run_frames st (found <$> pre)).
Qed.

(** ** The whole run *)

(** X19. The bill of a run: when the loop ends in a state, [run_cashier]
    prints one line per entry of the tally, each with the price of its
    label and price times count, and the total is the sum of the prices of
    the stored objects, one price per object. *)
Theorem run_cashier_bills_stored_objects (feed : list turn) (st : state) :
  run_loop init feed = Ok st →
  run_cashier feed
  = Ok (line_of PRICE_LIST <$> counts st, seen_value (seen_objects st)).
Proof.
  intros H. unfold run_cashier. rewrite H. simpl.
  destruct (run_loop_prefix init feed) as [n Hn]. rewrite Hn in H.
  destruct (bill_loop_spec PRICE_LIST (counts st) [] 0) as (lines & Hrun & Hitems & Hall).
  { intros k Hk%(run_frames_priced_keys _ _ H). unfold contains in Hk.
    by destruct (PRICE_LIST !! k). }
  unfold receipt. rewrite Hrun. simpl.
  rewrite (bill_lines _ _ _ Hitems Hall). by rewrite (run_frames_value _ _ H).
Qed.

Lemma pull_Raise (n : nat) (it : list coord) (e : exn) :
  pull n it = Raise e → e = ValueError ∨ e = OverflowError.
Proof.
  revert it. induction n as [|n IH]; intros [|c rest]; simpl; try done.
  destruct c as [q| |neg]; simpl; [| by intros [= <-]; left | by intros [= <-]; right].
  destruct (pull n rest) as [zs|e'] eqn:E; simpl; [done |].
  intros [= <-]. by apply (IH rest).
Qed.

Lemma unpack4_Raise (it : list coord) (e : exn) :
  unpack4 it = Raise e → e = ValueError ∨ e = OverflowError.
Proof.
  unfold unpack4. destruct (pull 5 it) as [zs|e'] eqn:E; simpl.
  - destruct zs as [|? [|? [|? [|? [|]]]]]; intros [= <-]; by left.
  - intros [= <-]. by apply (pull_Raise 5 it).
Qed.

Lemma process_box_Raise (s : state) (d : Detection) (e : exn) :
  process_box s d = Raise e →
  contains PRICE_LIST (cls_name d) = true ∧ unpack4 (xyxy d) = Raise e.
Proof.
  unfold process_box. destruct (contains PRICE_LIST (cls_name d)); [| done].
  destruct (unpack4 (xyxy d)) as [b|e']; simpl.
  - by destruct (negb _).
  - by intros [= <-].
Qed.

Lemma process_boxes_Raise (s : state) (boxes : list Detection) (e : exn) :
  process_boxes s boxes = Raise e →
  ∃ d, d ∈ boxes ∧ contains PRICE_LIST (cls_name d) = true
       ∧ unpack4 (xyxy d) = Raise e.
Proof.
  revert s. induction boxes as [|d rest IH]; intros s; simpl; [done |].
  destruct (process_box s d) as [s1|e'] eqn:E; simpl.
  - intros (d' & Hd' & H)%IH. exists d'. split; [by right | done].
  - intros [= <-]. apply process_box_Raise in E. exists d. split; [left | done].
Qed.

Lemma elem_of_concat {A} (x : A) (ls : list (list A)) :
  x ∈ concat ls ↔ ∃ l, x ∈ l ∧ l ∈ ls.
Proof.
  induction ls as [|l0 rest IH]; simpl.
  - split; [by intros ?%elem_of_nil | by intros (l & _ & ?%elem_of_nil)].
  - rewrite elem_of_app, IH. split.
    + intros [?|(l & ? & ?)]; [exists l0; split; [done | left] |].
      exists l. split; [done | by right].
    + intros (l & Hx & [->|?]%elem_of_cons); [by left |]. right. by exists l.
Qed.

(** X20. The only thing [run_cashier] can fail on is a box: when it raises,
    some priced detection in a frame of the feed has coordinates that do
    not unpack, the exception is the one of the unpacking, a ValueError or
    an OverflowError, and it is never the KeyError of a missing price. *)
Theorem run_cashier_fails_only_on_a_box (feed : list turn) (e : exn) :
  run_cashier feed = Raise e →
  (e = ValueError ∨ e = OverflowError)
  ∧ ∃ t d, t ∈ feed ∧ d ∈ concat (found t)
           ∧ contains PRICE_LIST (cls_name d) = true
           ∧ unpack4 (xyxy d) = Raise e.
Proof.
  unfold run_cashier. intros H.
  destruct (run_loop init feed) as [st|e'] eqn:E; simpl in H.
  - pose proof (run_loop_prefix init feed) as [n Hn]. rewrite Hn in E.
    apply receipt_of_session in E. by rewrite H in E.
  - injection H as ->.
    destruct (run_loop_prefix init feed) as [n Hn]. rewrite Hn in E.
    rewrite run_frames_concat in E.
    apply process_boxes_Raise in E as (d & Hd & Hp & Hraise).
    split; [by apply (unpack4_Raise (xyxy d)) |].
    apply elem_of_concat in Hd as (r & Hd & Hr).
    apply elem_of_concat in Hr as (f & Hr & Hf).
    apply list_elem_of_fmap in Hf as (t & -> & Ht).
    apply elem_of_take in Ht as (i & Ht & _).
    exists t, d. split; [by eapply list_elem_of_lookup_2 |]. split; [| done].
    apply elem_of_concat. by exists r.
Qed.

(** X21. A feed whose detections are all well formed never fails: the run
    ends with a bill. *)
Theorem run_cashier_well_formed_feed (feed : list turn) :
  Forall (λ t, Forall (Forall well_formed) (found t)) feed →
  is_ok (run_cashier feed) = true.
Proof.
  intros Hwf. unfold run_cashier.
  destruct (run_loop_prefix init feed) as [n ->].
  assert (is_ok (run_frames init (found <$> take n feed)) = true) as Hok.
  { apply run_frames_well_formed. apply Forall_fmap. by apply Forall_take. }
  destruct (run_frames init (found <$> take n feed)) as [st|e] eqn:E; [| done].
  simpl. by apply (receipt_of_session _ _ E).
Qed.

(** ** The overlay *)

Lemma overlay_loop_imap (items : list (string * Z)) (y : Z)
    (drawn : list (string * (Z * Z))) :
  overlay_loop items y drawn
  = drawn ++ imap (λ i e, ((e.1 ++ ": " ++ str e.2)%string,
                           (10, y + 30 * Z.of_nat i))) items.
Proof.
  revert y drawn. induction items as [|[k v] rest IH]; intros y drawn; simpl.
  - by rewrite app_nil_r.
  - rewrite IH, <- app_assoc. simpl. do 2 f_equal.
    + do 2 f_equal. lia.
    + apply imap_ext. intros i e _. simpl. do 2 f_equal. lia.
Qed.

(** X22. The running counts on the frame: the overlay writes one text per
    entry of the tally, in its order, the text of entry number [i]
    (counted from 0) being label, colon, count, at x = 10 and
    y = 30 * (i + 1). *)
Theorem overlay_lines (counts : list (string * Z)) :
  overlay counts
  = imap (λ i e, ((e.1 ++ ": " ++ str e.2)%string,
                  (10, 30 * (Z.of_nat i + 1)))) counts.
Proof.
  unfold overlay. rewrite overlay_loop_imap. simpl.
  apply imap_ext. intros i e _. simpl. do 2 f_equal. lia.
Qed.

(** ** Further sample runs *)

(** The two sightings of the apple: the sums differ by 4 and by 2, less
    than 100. *)
Lemma is_same_object_integer_test_sample :
  is_same_object (10, 10, 50, 50) (12, 11, 52, 51) 50 = true
  ↔ Z.abs ((10 + 50) - (12 + 52)) < 2 * 50
    ∧ Z.abs ((10 + 50) - (11 + 51)) < 2 * 50.
Proof.
  apply (is_same_object_integer_test 10 10 50 50 12 11 52 51 50).
  - by vm_compute.
  - by vm_compute.
Defined.

(** Two sightings of the apple two pixels apart pass at threshold 5, and so
    at 50. *)
Lemma is_same_object_threshold_monotone_sample :
  is_same_object (10, 10, 50, 50) (12, 11, 52, 51) 50 = true.
Proof.
  apply (is_same_object_threshold_monotone (10, 10, 50, 50) (12, 11, 52, 51) 5 50).
  - lia.
  - vm_compute; reflexivity.
Defined.

(** A 40 by 40 box and a 20 by 20 box around the same centre. *)
Lemma is_same_object_same_center_sample :
  is_same_object (10, 10, 50, 50) (12, 11, 52, 51) 50
  = is_same_object (20, 20, 40, 40) (12, 11, 52, 51) 50.
Proof.
  apply (is_same_object_same_center (10, 10, 50, 50) (20, 20, 40, 40)).
  - vm_compute; reflexivity.
  - vm_compute; reflexivity.
Defined.

(** The three frames shown again to the state they led to. *)
Lemma replayed_three_frames :
  run_frames two_apples three_frames = Ok two_apples.
Proof.
  apply (replayed_frames_change_nothing init two_apples three_frames).
  vm_compute; reflexivity.
Defined.

(** The second sighting of the apple is accounted for by the first. *)
Lemma near_apple_accounted_for :
  ∃ b prev_box,
    unpack4 (xyxy near_apple) = Ok b
    ∧ (cls_name near_apple, prev_box) ∈ seen_objects two_apples
    ∧ is_same_object prev_box b default_threshold = true.
Proof.
  apply (every_detection_accounted_for init two_apples three_frames near_apple).
  - vm_compute; reflexivity.
  - unfold three_frames. simpl. rewrite !elem_of_cons. auto.
  - vm_compute; reflexivity.
Defined.

(** The two apples stored by the three frames are apart. *)
Lemma two_apples_stay_apart :
  is_same_object (10, 10, 50, 50) (200, 200, 240, 240) default_threshold = false.
Proof.
  apply (stored_objects_stay_apart three_frames two_apples 0 1 "apple").
  - vm_compute; reflexivity.
  - lia.
  - reflexivity.
  - reflexivity.
Defined.

(** The apples of a frame with a keyboard and a banana in it. *)
Lemma apples_of_mixed_frame :
  ∃ st_l,
    update init (only "apple" <$> mixed_frame) = Ok st_l
    ∧ tally (counts st_l) "apple" = tally (counts apple_and_banana) "apple"
    ∧ seen_of "apple" (seen_objects st_l)
      = seen_of "apple" (seen_objects apple_and_banana).
Proof.
  apply (labels_do_not_interfere "apple" init apple_and_banana mixed_frame).
  vm_compute; reflexivity.
Defined.

(** Three apple detections, two apples counted. *)
Lemma tally_bounded_three_frames :
  tally (counts two_apples) "apple"
  ≤ tally (counts init) "apple"
    + Z.of_nat (length (only "apple" (concat (concat three_frames)))).
Proof.
  apply (tally_bounded_by_detections init two_apples three_frames "apple").
  vm_compute; reflexivity.
Defined.

Lemma tally_entries_three_frames :
  NoDup (counts two_apples).*1
  ∧ (∀ k v, (k, v) ∈ counts two_apples → 1 ≤ v ∧ tally (counts two_apples) k = v)
  ∧ (∀ k, k ∈ (counts two_apples).*1 → contains PRICE_LIST k = true).
Proof.
  apply (tally_entries_distinct_positive_priced three_frames two_apples).
  vm_compute; reflexivity.
Defined.

(** The far apple of the store is the far apple of the third frame. *)
Lemma far_apple_was_detected :
  ∃ d, d ∈ concat (concat three_frames)
       ∧ cls_name d = "apple"
       ∧ contains PRICE_LIST "apple" = true
       ∧ unpack4 (xyxy d) = Ok (200, 200, 240, 240).
Proof.
  apply (stored_objects_were_detected three_frames two_apples).
  - vm_compute; reflexivity.
  - simpl. rewrite !elem_of_cons. auto.
Defined.

Lemma tally_labels_three_frames :
  "apple" ∈ (counts two_apples).*1
  ↔ contains PRICE_LIST "apple" = true
    ∧ ∃ d, d ∈ concat (concat three_frames) ∧ cls_name d = "apple".
Proof.
  apply (tally_labels_are_detected_priced_labels three_frames two_apples "apple").
  vm_compute; reflexivity.
Defined.

(** Apple before banana in the turns, apple before banana in the tally. *)
Lemma tally_order_mixed_frame :
  (counts apple_and_banana).*1
  = first_occurrences (seen_objects apple_and_banana).*1.
Proof.
  apply (tally_in_first_confirmed_order [mixed_frame] apple_and_banana).
  vm_compute; reflexivity.
Defined.

(** The sample tally with the cake first. *)
Lemma receipt_total_cake_first :
  ∃ lines2,
    receipt sample_prices [("cake", 1); ("apple", 3)] = Ok (lines2, 190)
    ∧ [ {| item := "apple"; count := 3; price := 30; line_total := 90 |};
        {| item := "cake"; count := 1; price := 100; line_total := 100 |} ]
      ≡ₚ lines2
    ∧ (λ ln, (item ln, count ln)) <$> lines2 = [("cake", 1); ("apple", 3)].
Proof.
  apply (receipt_total_order_independent sample_prices sample_tally).
  - apply perm_swap.
  - vm_compute; reflexivity.
Defined.

(** An apple, then a banana with q pressed, then the end of the capture. *)
Lemma loop_ends_sample :
  (ret banana_quit_turn = false →
   run_loop init ([apple_turn] ++ banana_quit_turn :: [no_frame_turn])
   = run_frames init (found <$> [apple_turn]))
  ∧ (ret banana_quit_turn = true → pressed banana_quit_turn `mod` 256 = 113 →
     run_loop init ([apple_turn] ++ banana_quit_turn :: [no_frame_turn])
     = run_frames init (found <$> ([apple_turn] ++ [banana_quit_turn])))
  ∧ run_loop init [apple_turn] = run_frames init (found <$> [apple_turn]).
Proof.
  apply (loop_ends_on_no_frame_or_q init [apple_turn] banana_quit_turn [no_frame_turn]).
  apply Forall_cons. split; [| constructor].
  split; [reflexivity |]. intros H. vm_compute in H. discriminate H.
Defined.

Lemma run_cashier_apple_and_banana :
  run_cashier [apple_turn; banana_quit_turn; no_frame_turn]
  = Ok (line_of PRICE_LIST <$> counts apple_and_banana,
        seen_value (seen_objects apple_and_banana)).
Proof.
  apply (run_cashier_bills_stored_objects
           [apple_turn; banana_quit_turn; no_frame_turn] apple_and_banana).
  vm_compute; reflexivity.
Defined.

(** A turn with a NaN among the coordinates of an apple ends the run. *)
Lemma run_cashier_nan_turn :
  (ValueError = ValueError ∨ ValueError = OverflowError)
  ∧ ∃ t d, t ∈ [apple_turn; nan_turn] ∧ d ∈ concat (found t)
           ∧ contains PRICE_LIST (cls_name d) = true
           ∧ unpack4 (xyxy d) = Raise ValueError.
Proof.
  apply (run_cashier_fails_only_on_a_box [apple_turn; nan_turn] ValueError).
  vm_compute; reflexivity.
Defined.

Lemma run_cashier_two_turns :
  is_ok (run_cashier [apple_turn; banana_quit_turn]) = true.
Proof.
  apply (run_cashier_well_formed_feed [apple_turn; banana_quit_turn]).
  repeat (apply Forall_cons; split); try (by constructor);
    intros _; vm_compute; reflexivity.
Defined.

(** A keyboard in the tally: the apple line is printed, then the lookup of
    the keyboard raises; the cake line and the total are not printed. *)
Lemma receipt_prints_apple_then_fails :
  print_receipt PRICE_LIST unpriced_tally
  = (Header :: (Item <$> (line_of PRICE_LIST <$> [("apple", 3)])), Raise KeyError)
  ∧ receipt PRICE_LIST unpriced_tally = Raise KeyError.
Proof.
  destruct (receipt_prints_until_missing_price PRICE_LIST unpriced_tally)
    as [_ Hmissing].
  apply (Hmissing [("apple", 3)] "keyboard" 1 [("cake", 1)]).
  - reflexivity.
  - intros k' Hk'. apply list_elem_of_singleton in Hk' as ->.
    vm_compute. eauto.
  - vm_compute; reflexivity.
Defined.
